(** * Ledger store of the chain package (chain/store/store.go)

    A shallow embedding of [ChainStore]: the key-value engine it writes to,
    the batch protocol of [persist] and [SaveBlock], the read API
    ([GetHeader], [GetBlock], [IsBlockInStore], [GetStateRoots]), the
    donation accounting ([getDonation], [CalcNextDonation]) and the start-up
    path [InitLedgerStoreWithGenesisBlock].

    Go's [uint32] and [int64] values are integers of [Z] with the wrap-around
    written out; byte slices are lists of [byte]; a Go [(value, error)] pair
    is a [result]; a method that mutates its receiver is a function in the
    state monad [M] over the [ChainStore] record. *)

From Stdlib Require Import ZArith List Lia.
From Stdlib.Strings Require Import Byte.
From stdpp Require Import base option list gmap strings.

Local Open Scope Z_scope.

(** ** Machine integers and byte slices *)

Abbreviation bytes := (list byte).

Definition u32 (z : Z) : Z := z mod 2 ^ 32.
Definition MaxUint32 : Z := 2 ^ 32 - 1.

Definition MinInt64 : Z := - 2 ^ 63.
Definition MaxInt64 : Z := 2 ^ 63 - 1.
Definition in_int64 (z : Z) : Prop := MinInt64 <= z <= MaxInt64.

(** Conversion to [int64]: two's complement wrap-around. *)
Definition i64 (z : Z) : Z := (z + 2 ^ 63) mod 2 ^ 64 - 2 ^ 63.

Definition byte_of_Z (z : Z) : byte :=
  match Byte.of_N (Z.to_N (z mod 256)) with
  | Some b => b
  | None => x00
  end.

Definition Z_of_byte (b : byte) : Z := Z.of_N (Byte.to_N b).

#[global] Instance byte_eq_dec : EqDecision byte := Byte.byte_eq_dec.

#[global] Instance byte_countable : Countable byte :=
  inj_countable Byte.to_N Byte.of_N Byte.of_to_N.

(** ** Errors and results *)

(** [common.Uint256] is a 32-byte array. *)
Abbreviation Uint256 := (list byte) (only parsing).
Abbreviation Uint160 := (list byte) (only parsing).

Definition UINT256SIZE : nat := 32.
Definition EmptyUint256 : Uint256 := replicate UINT256SIZE x00.

Inductive error : Type :=
  | ErrNotFound                 (* the engine has no value under the key *)
  | ErrIO                       (* the engine could not write *)
  | ErrUnsupportedTxType        (* "unsupported transaction type" *)
  | ErrStateRootNotEqual (root headerRoot : Uint256)
                                (* "state root not equal:%v, %v" *)
  | ErrInvalidDonationHeight    (* "invalid height to update donation" *)
  | ErrHeightRange (toHeight fromHeight : Z)
                                (* "toHeight(%v) is less than fromHeight(%v)" *)
  | ErrGenesisNotInStore        (* "genesisBlock is NOT in BlockStore" *)
  | ErrResetDB (e : error)      (* "InitLedgerStoreWithGenesisBlock, ResetDB error: %v" *)
  | ErrUnknownPruningMode (mode : string)
                                (* "unknown state pruning mode %v" *)
  | ErrInvalidLength            (* a digest that is not 32 bytes long *)
  | ErrEOF                      (* a reader that ran out of bytes *)
  | ErrCollaborator (code : N). (* an error of a package outside the store *)

(** The outcome of a Go call returning [(value, error)]; [Panic] is a
    run-time panic (index out of range, nil dereference, division by zero). *)
Inductive result (A : Type) : Type :=
  | Ok (a : A)
  | Err (e : error)
  | Panic.

Arguments Ok {A} a.
Arguments Err {A} e.
Arguments Panic {A}.

Definition is_Ok {A} (r : result A) : bool :=
  match r with Ok _ => true | _ => false end.

Definition rbind {A B} (r : result A) (k : A -> result B) : result B :=
  match r with
  | Ok a => k a
  | Err e => Err e
  | Panic => Panic
  end.

Declare Scope result_scope.
Delimit Scope result_scope with result.
Notation "x <- c ;; k" := (rbind c (fun x => k))
  (at level 100, c at next level, right associativity) : result_scope.

(** ** encoding/binary and package serialization *)

(** [binary.LittleEndian.PutUint32]. *)
Definition PutUint32 (v : Z) : bytes :=
  [byte_of_Z v; byte_of_Z (Z.shiftr v 8);
   byte_of_Z (Z.shiftr v 16); byte_of_Z (Z.shiftr v 24)].

Arguments PutUint32 : simpl never.

(** [binary.LittleEndian.Uint32]: panics on a slice shorter than 4. *)
Definition Uint32 (b : bytes) : result Z :=
  match b with
  | b0 :: b1 :: b2 :: b3 :: _ =>
      Ok (Z.lor (Z_of_byte b0)
           (Z.lor (Z.shiftl (Z_of_byte b1) 8)
             (Z.lor (Z.shiftl (Z_of_byte b2) 16) (Z.shiftl (Z_of_byte b3) 24))))
  | _ => Panic
  end.

(** [value[4:]]: panics on a slice shorter than 4. *)
Definition slice_from4 (b : bytes) : result bytes :=
  if decide (4 <= length b)%nat then Ok (drop 4 b) else Panic.

(** Modelled from the spec: package serialization is not part of the store;
    [WriteUint32]/[ReadUint32] are its fixed-width little-endian codec of a
    [uint32]: the one appends to the buffer [w], the other reads from the
    front of what is left of a reader. *)
Definition WriteUint32 (w : bytes) (v : Z) : result bytes :=
  Ok (w ++ PutUint32 v).

Definition ReadUint32 (r : bytes) : result (Z * bytes) :=
  if decide (4 <= length r)%nat
  then (v <- Uint32 r ;; Ok (v, drop 4 r))%result
  else Err ErrEOF.

(** Modelled from the spec: [common.Fixed64] is an [int64]; its codec writes
    the eight bytes of the two's complement value, low byte first. *)
Definition Fixed64_Serialize (w : bytes) (f : Z) : result bytes :=
  Ok (w ++ map (fun i => byte_of_Z (Z.shiftr (f mod 2 ^ 64) (8 * Z.of_nat i)))
             (seq 0 8)).

Definition Fixed64_Deserialize (r : bytes) : result (Z * bytes) :=
  if decide (8 <= length r)%nat
  then Ok (i64 (fold_right (fun b acc => Z_of_byte b + 256 * acc) 0 (take 8 r)),
           drop 8 r)
  else Err ErrEOF.

(** Modelled from the spec: a state root is "a fixed-size digest";
    [common.Uint256ParseFromBytes] accepts exactly 32 bytes. *)
Definition Uint256ParseFromBytes (f : bytes) : result Uint256 :=
  if decide (length f = UINT256SIZE) then Ok f else Err ErrInvalidLength.

Definition Uint256_ToArray (u : Uint256) : bytes := u.

(** [Uint256.Serialize] writes the 32 bytes to the buffer. *)
Definition Uint256_Serialize (u : Uint256) : result bytes := Ok u.

(** [Uint256.Deserialize] fills the digest from the reader; what it could not
    read stays zero. Its error is dropped by the only caller in the store. *)
Definition Uint256_Deserialize (r : bytes) : Uint256 * bytes :=
  (take UINT256SIZE r ++ replicate (UINT256SIZE - length r) x00,
   drop UINT256SIZE r).

(** [Uint256.CompareTo] returns 0 exactly on equal digests. *)
Definition Uint256_CompareTo (u o : Uint256) : Z :=
  if decide (u = o) then 0 else 1.

(** ** The key space of package db *)

(** Modelled from the spec: the key namespace of package db (section 6):
    schema-version marker, header-by-hash, height-to-hash index,
    transaction-by-hash, current-state-root, current-chain-pointer,
    donation-by-height and the three pruning cursors. Keys of different
    namespaces never coincide. [TrieNodeKey] stands for the namespaces of the
    state trie. *)
Inductive Key : Type :=
  | VersionKey
  | HeaderKey (hash : Uint256)
  | BlockhashKey (height : Z)
  | TransactionKey (hash : Uint256)
  | CurrentStateTrie
  | CurrentBlockHashKey
  | DonationKey (height : Z)
  | TrieRefCountHeightKey
  | TriePrunedHeightKey
  | TrieCompactHeightKey
  | TrieNodeKey (raw : bytes).

#[global] Instance Key_eq_dec : EqDecision Key.
Proof. solve_decision. Defined.

Definition Key_encode (k : Key) : nat * (Z + bytes) :=
  match k with
  | VersionKey => (0%nat, inl 0)
  | HeaderKey h => (1%nat, inr h)
  | BlockhashKey z => (2%nat, inl z)
  | TransactionKey h => (3%nat, inr h)
  | CurrentStateTrie => (4%nat, inl 0)
  | CurrentBlockHashKey => (5%nat, inl 0)
  | DonationKey z => (6%nat, inl z)
  | TrieRefCountHeightKey => (7%nat, inl 0)
  | TriePrunedHeightKey => (8%nat, inl 0)
  | TrieCompactHeightKey => (9%nat, inl 0)
  | TrieNodeKey r => (10%nat, inr r)
  end.

Definition Key_decode (p : nat * (Z + bytes)) : option Key :=
  match p with
  | (0%nat, _) => Some VersionKey
  | (1%nat, inr h) => Some (HeaderKey h)
  | (2%nat, inl z) => Some (BlockhashKey z)
  | (3%nat, inr h) => Some (TransactionKey h)
  | (4%nat, _) => Some CurrentStateTrie
  | (5%nat, _) => Some CurrentBlockHashKey
  | (6%nat, inl z) => Some (DonationKey z)
  | (7%nat, _) => Some TrieRefCountHeightKey
  | (8%nat, _) => Some TriePrunedHeightKey
  | (9%nat, _) => Some TrieCompactHeightKey
  | (10%nat, inr r) => Some (TrieNodeKey r)
  | _ => None
  end.

Lemma Key_decode_encode (k : Key) : Key_decode (Key_encode k) = Some k.
Proof. destruct k; reflexivity. Qed.

#[global] Instance Key_countable : Countable Key :=
  inj_countable Key_encode Key_decode Key_decode_encode.

(** ** The key-value engine *)

(** Modelled from the spec: [db.IStore] is "point get/put by opaque byte key;
    an atomic batch abstraction where all writes between open and commit
    become durable together or not at all". [durable] is what is on disk,
    [batch] the writes staged since the batch was opened, oldest first;
    [healthy] tells whether the engine can write: when it cannot, [Put] and
    [BatchCommit] fail and change nothing. *)
Record IStore : Type := mkStore {
  durable : gmap Key bytes;
  batch : list (Key * option bytes);
  healthy : bool
}.

Definition Get (s : IStore) (k : Key) : result bytes :=
  match durable s !! k with
  | Some v => Ok v
  | None => Err ErrNotFound
  end.

Definition Put (k : Key) (v : bytes) (s : IStore) : IStore * result unit :=
  if healthy s
  then (mkStore (<[k := v]> (durable s)) (batch s) (healthy s), Ok tt)
  else (s, Err ErrIO).

Definition NewBatch (s : IStore) : IStore * result unit :=
  (mkStore (durable s) [] (healthy s), Ok tt).

Definition BatchPut (k : Key) (v : bytes) (s : IStore) : IStore * result unit :=
  (mkStore (durable s) (batch s ++ [(k, Some v)]) (healthy s), Ok tt).

Definition BatchDelete (k : Key) (s : IStore) : IStore * result unit :=
  (mkStore (durable s) (batch s ++ [(k, None)]) (healthy s), Ok tt).

Definition apply_write (m : gmap Key bytes) (w : Key * option bytes)
  : gmap Key bytes :=
  match w with
  | (k, Some v) => <[k := v]> m
  | (k, None) => delete k m
  end.

Definition BatchCommit (s : IStore) : IStore * result unit :=
  if healthy s
  then (mkStore (foldl apply_write (durable s) (batch s)) [] (healthy s), Ok tt)
  else (s, Err ErrIO).

(** The value under [k] once the writes [ws] are applied, oldest first, to a
    store holding [d] under [k]. *)
Fixpoint write_lookup (k : Key) (ws : list (Key * option bytes))
    (d : option bytes) : option bytes :=
  match ws with
  | [] => d
  | w :: ws' => write_lookup k ws' (if decide (w.1 = k) then w.2 else d)
  end.

(** [NewIterator(nil)] followed by [Next]/[Key] until exhaustion: every key. *)
Definition iterate_keys (s : IStore) : list Key :=
  (map_to_list (durable s)).*1.

(** ** Blocks, headers and donation records *)

Module pb.

(** The payload kind of a transaction: a protobuf enumeration, so a value
    outside the named kinds can reach the store. *)
Inductive PayloadType : Type :=
  | COINBASE_TYPE
  | SIG_CHAIN_TXN_TYPE
  | TRANSFER_ASSET_TYPE
  | ISSUE_ASSET_TYPE
  | REGISTER_NAME_TYPE
  | TRANSFER_NAME_TYPE
  | DELETE_NAME_TYPE
  | SUBSCRIBE_TYPE
  | UNSUBSCRIBE_TYPE
  | GENERATE_ID_TYPE
  | NANO_PAY_TYPE
  | UNKNOWN_TYPE (tag : Z).

#[global] Instance PayloadType_eq_dec : EqDecision PayloadType.
Proof. solve_decision. Defined.

(** Modelled from the spec: a header "contains height, previous-block
    reference, declared state root, timestamp, and signature material". *)
Record UnsignedHeader : Type := mkUnsignedHeader {
  Height : Z;                 (* uint32 *)
  PrevBlockHash : bytes;
  StateRoot : bytes;
  Timestamp : Z
}.

End pb.

Module block.

Record Header : Type := mkHeader {
  UnsignedHeader : pb.UnsignedHeader;
  Signature : bytes
}.

End block.

(** The eleven kinds [persist] accepts. *)
Definition recognized_kinds : list pb.PayloadType :=
  [pb.COINBASE_TYPE; pb.SIG_CHAIN_TXN_TYPE; pb.TRANSFER_ASSET_TYPE;
   pb.ISSUE_ASSET_TYPE; pb.REGISTER_NAME_TYPE; pb.TRANSFER_NAME_TYPE;
   pb.DELETE_NAME_TYPE; pb.SUBSCRIBE_TYPE; pb.UNSUBSCRIBE_TYPE;
   pb.GENERATE_ID_TYPE; pb.NANO_PAY_TYPE].

Record Donation : Type := NewDonation {
  Height : Z;                   (* uint32 *)
  Amount : Z                    (* common.Fixed64 *)
}.

Definition Donation_Serialize (d : Donation) (w : bytes) : result bytes :=
  (w <- WriteUint32 w (Height d) ;;
   w <- Fixed64_Serialize w (Amount d) ;;
   Ok w)%result.

Definition Donation_Deserialize (r : bytes) : result Donation :=
  (hr <- ReadUint32 r ;;
   ar <- Fixed64_Deserialize (snd hr) ;;
   Ok (NewDonation (fst hr) (fst ar)))%result.

(** Configuration values read by the store (package config). *)
Record Config : Type := mkConfig {
  DBVersion : byte;
  RewardAdjustInterval : Z;           (* int *)
  DonationAddress : string;
  DonationAdjustDividendFactor : Z;   (* untyped constant, used as Fixed64 *)
  DonationAdjustDivisorFactor : Z;    (* untyped constant, used as Fixed64 *)
  NKNAssetID : Uint256;
  LivePruning : bool;
  StatePruningMode : string;
  BlockHeaderCacheSize : Z            (* uint32 *)
}.

(** Go's [/] and [%] on [uint32] and [/] on [int64]: a zero divisor panics,
    [int64] division truncates toward zero and wraps on [MinInt64 / -1]. *)
Definition u32_div (a b : Z) : result Z :=
  if b =? 0 then Panic else Ok (a / b).

Definition u32_rem (a b : Z) : result Z :=
  if b =? 0 then Panic else Ok (a mod b).

Definition i64_div (a b : Z) : result Z :=
  if b =? 0 then Panic else Ok (i64 (Z.quot a b)).

(** ** The collaborators of the store *)

(** The types the store takes from other packages. *)
Class Types : Type := {
  Transaction : Type;   (* transaction.Transaction *)
  StateDB : Type;       (* the state view over the account trie *)
  Account : Type;       (* an account of the state view *)
  HeaderCache : Type    (* the bounded window of recent headers *)
}.

Section Store.

Context {Ty : Types}.

Record Block : Type := mkBlock {
  Header : block.Header;
  Transactions : list Transaction
}.

Definition Block_Height (b : Block) : Z :=
  pb.Height (block.UnsignedHeader (Header b)).

(** [ChainStore]: the engine handle [st], the header cache, the state view
    (a pointer, [None] when nil) and the in-memory chain pointer. The mutex
    and the unused block cache are left out. *)
Record ChainStore : Type := mkChainStore {
  st : IStore;
  headerCache : HeaderCache;
  States : option StateDB;
  currentBlockHash : Uint256;
  currentBlockHeight : Z        (* uint32 *)
}.

(** What the store calls in its collaborators. Encoders write to a memory
    buffer and have no failure of their own; decoders fail on malformed
    bytes. *)
Class Collaborators : Type := {
  (* package transaction *)
  Txn_PayloadType : Transaction -> pb.PayloadType;
  Txn_Hash : Transaction -> Uint256;
  Txn_encode : Transaction -> bytes;
  Txn_Unmarshal : bytes -> result Transaction;
  (* package block and package serialization *)
  Block_Hash : Block -> Uint256;
  Block_encode_trimmed : Block -> bytes;
  Block_FromTrimmedData : bytes -> result Block;
  ReadVarBytes : bytes -> result bytes;
  Header_Unmarshal : bytes -> result block.Header;
  (* the state view *)
  NewStateDB : Uint256 -> ChainStore -> result StateDB;
  generateStateRoot :
    ChainStore -> Block -> bool -> bool -> result (StateDB * Uint256);
  GetOrNewAccount : StateDB -> Uint160 -> Account;
  Account_GetBalance : Account -> Uint256 -> Z;
  StateDB_PruneStatesLowMemory : StateDB -> bool -> IStore -> IStore * result unit;
  ToScriptHash : string -> result Uint160;
  (* the header cache *)
  AddHeaderToCache : HeaderCache -> block.Header -> HeaderCache;
  RemoveCachedHeader : HeaderCache -> Z -> HeaderCache
}.

Context {Co : Collaborators}.
Variable cfg : Config.

Definition Txn_Marshal (txn : Transaction) : result bytes :=
  Ok (Txn_encode txn).

(** [Block.Trim] writes the trimmed form of the block to the buffer. *)
Definition Block_Trim (b : Block) (w : bytes) : result bytes :=
  Ok (w ++ Block_encode_trimmed b).

(** ** The state monad of the receiver *)

Definition M (A : Type) : Type := ChainStore -> ChainStore * result A.

Definition mret {A} (a : A) : M A := fun cs => (cs, Ok a).

Definition mbind {A B} (m : M A) (k : A -> M B) : M B :=
  fun cs =>
    match m cs with
    | (cs', Ok a) => k a cs'
    | (cs', Err e) => (cs', Err e)
    | (cs', Panic) => (cs', Panic)
    end.

Definition mfail {A} (e : error) : M A := fun cs => (cs, Err e).

(** A call that does not touch the receiver. *)
Definition lift {A} (r : result A) : M A := fun cs => (cs, r).

(** A call that reads the receiver. *)
Definition reads {A} (f : ChainStore -> result A) : M A := fun cs => (cs, f cs).

Definition set_st (s : IStore) (cs : ChainStore) : ChainStore :=
  mkChainStore s (headerCache cs) (States cs)
    (currentBlockHash cs) (currentBlockHeight cs).

Definition set_headerCache (hc : HeaderCache) (cs : ChainStore) : ChainStore :=
  mkChainStore (st cs) hc (States cs)
    (currentBlockHash cs) (currentBlockHeight cs).

Definition set_States (s : option StateDB) (cs : ChainStore) : ChainStore :=
  mkChainStore (st cs) (headerCache cs) s
    (currentBlockHash cs) (currentBlockHeight cs).

Definition set_pointer (hash : Uint256) (height : Z) (cs : ChainStore)
  : ChainStore :=
  mkChainStore (st cs) (headerCache cs) (States cs) hash height.

(** A call on the engine [cs.st]. *)
Definition on_st {A} (f : IStore -> IStore * result A) : M A :=
  fun cs => let r := f (st cs) in (set_st r.1 cs, r.2).

Definition modify (f : ChainStore -> ChainStore) : M unit :=
  fun cs => (f cs, Ok tt).

(** [fmt.Errorf] around the error of a call. *)
Definition wrap_error {A} (f : error -> error) (m : M A) : M A :=
  fun cs =>
    match m cs with
    | (cs', Err e) => (cs', Err (f e))
    | other => other
    end.

Declare Scope store_scope.
Delimit Scope store_scope with M.
Notation "x <- c ;; k" := (mbind c (fun x => k))
  (at level 100, c at next level, right associativity) : store_scope.

Fixpoint for_each {A} (l : list A) (body : A -> M unit) : M unit :=
  match l with
  | [] => mret tt
  | x :: l' => (_ <- body x ;; for_each l' body)%M
  end.

Fixpoint map_result {A B} (f : A -> result B) (l : list A) : result (list B) :=
  match l with
  | [] => Ok []
  | x :: l' => (y <- f x ;; ys <- map_result f l' ;; Ok (y :: ys))%result
  end.

(** ** The read API *)

Definition GetBlockHash (cs : ChainStore) (height : Z) : result Uint256 :=
  (blockHash <- Get (st cs) (BlockhashKey height) ;;
   Uint256ParseFromBytes blockHash)%result.

Definition GetHeader (cs : ChainStore) (hash : Uint256) : result block.Header :=
  (data <- Get (st cs) (HeaderKey hash) ;;
   dt <- ReadVarBytes data ;;
   Header_Unmarshal dt)%result.

Definition GetHeaderByHeight (cs : ChainStore) (height : Z)
  : result block.Header :=
  (hash <- GetBlockHash cs height ;;
   GetHeader cs hash)%result.

(** [getTx]: the stored value is the inclusion height, four bytes, followed
    by the serialized transaction. *)
Definition getTx (cs : ChainStore) (hash : Uint256)
  : result (Transaction * Z) :=
  (value <- Get (st cs) (TransactionKey hash) ;;
   height <- Uint32 value ;;
   value <- slice_from4 value ;;
   txn <- Txn_Unmarshal value ;;
   Ok (txn, height))%result.

Definition GetTransaction (cs : ChainStore) (hash : Uint256)
  : result Transaction :=
  (r <- getTx cs hash ;; Ok r.1)%result.

(** [GetBlock]: the loop replaces, left to right, each transaction of the
    trimmed block by the record stored under that transaction's hash. *)
Definition GetBlock (cs : ChainStore) (hash : Uint256) : result Block :=
  (bHash <- Get (st cs) (HeaderKey hash) ;;
   b <- Block_FromTrimmedData bHash ;;
   txs <- map_result
            (fun t => r <- getTx cs (Txn_Hash t) ;; Ok r.1)
            (Transactions b) ;;
   Ok (mkBlock (Header b) txs))%result.

Definition GetBlockByHeight (cs : ChainStore) (height : Z) : result Block :=
  (hash <- GetBlockHash cs height ;;
   GetBlock cs hash)%result.

Definition IsBlockInStore (cs : ChainStore) (hash : Uint256) : result bool :=
  match GetHeader cs hash with
  | Ok header =>
      if pb.Height (block.UnsignedHeader header) >? currentBlockHeight cs
      then Ok false
      else Ok true
  | Err _ => Ok false
  | Panic => Panic
  end.

Definition IsTxHashDuplicate (cs : ChainStore) (txhash : Uint256) : bool :=
  match Get (st cs) (TransactionKey txhash) with
  | Ok _ => true
  | _ => false
  end.

Definition IsDoubleSpend (cs : ChainStore) (tx : Transaction) : bool := false.

Definition GetHeight (cs : ChainStore) : Z := currentBlockHeight cs.

Definition GetCurrentBlockHash (cs : ChainStore) : Uint256 :=
  currentBlockHash cs.

(** [getCurrentBlockHashFromDB] returns [(hash, height, err)]: the error of
    [Deserialize] is dropped, and the hash read so far is returned next to
    the error of [ReadUint32], with height 0. *)
Definition getCurrentBlockHashFromDB (cs : ChainStore)
  : Uint256 * Z * result unit :=
  match Get (st cs) CurrentBlockHashKey with
  | Ok data =>
      let blockHash := (Uint256_Deserialize data).1 in
      let r := (Uint256_Deserialize data).2 in
      match ReadUint32 r with
      | Ok cr => (blockHash, cr.1, Ok tt)
      | Err e => (blockHash, 0, Err e)
      | Panic => (blockHash, 0, Panic)
      end
  | Err e => (EmptyUint256, 0, Err e)
  | Panic => (EmptyUint256, 0, Panic)
  end.

Definition GetCurrentBlockStateRoot (cs : ChainStore) : result Uint256 :=
  (currentState <- Get (st cs) CurrentStateTrie ;;
   Uint256ParseFromBytes currentState)%result.

(** ** Donation accounting *)

Definition getDonation (cs : ChainStore) : result Donation :=
  (q <- u32_div (currentBlockHeight cs) (u32 (RewardAdjustInterval cfg)) ;;
   let currentDonationHeight := u32 (q * u32 (RewardAdjustInterval cfg)) in
   data <- Get (st cs) (DonationKey currentDonationHeight) ;;
   Donation_Deserialize data)%result.

Definition GetDonation (cs : ChainStore) : result Z :=
  (donation <- getDonation cs ;; Ok (Amount donation))%result.

(** The balance of the donation (treasury) account in the live state view;
    a nil state view panics. *)
Definition treasury_balance (cs : ChainStore) (donationAddress : Uint160)
  : result Z :=
  match States cs with
  | Some states =>
      Ok (Account_GetBalance (GetOrNewAccount states donationAddress)
            (NKNAssetID cfg))
  | None => Panic
  end.

Definition CalcNextDonation (cs : ChainStore) (height : Z) : result Donation :=
  if height =? 0 then Ok (NewDonation 0 0)
  else
    (lastDonation <- getDonation cs ;;
     if negb (u32 (Height lastDonation + u32 (RewardAdjustInterval cfg)) =? height)
     then Err ErrInvalidDonationHeight
     else
       donationAddress <- ToScriptHash (DonationAddress cfg) ;;
       amount <- treasury_balance cs donationAddress ;;
       donation <- i64_div (i64 (amount * DonationAdjustDividendFactor cfg))
                           (DonationAdjustDivisorFactor cfg) ;;
       donationPerBlock <- i64_div donation (i64 (RewardAdjustInterval cfg)) ;;
       Ok (NewDonation height donationPerBlock))%result.

(** ** The persistence pipeline *)

(** The body of the loop over the transactions of the block: stage the
    record, then check the payload kind. *)
Definition persist_transaction (height : Z) (txn : Transaction) : M unit :=
  (let buffer := PutUint32 height in
   dt <- lift (Txn_Marshal txn) ;;
   let buffer := buffer ++ dt in
   _ <- on_st (BatchPut (TransactionKey (Txn_Hash txn)) buffer) ;;
   match Txn_PayloadType txn with
   | pb.COINBASE_TYPE => mret tt
   | pb.SIG_CHAIN_TXN_TYPE => mret tt
   | pb.TRANSFER_ASSET_TYPE => mret tt
   | pb.ISSUE_ASSET_TYPE => mret tt
   | pb.REGISTER_NAME_TYPE => mret tt
   | pb.TRANSFER_NAME_TYPE => mret tt
   | pb.DELETE_NAME_TYPE => mret tt
   | pb.SUBSCRIBE_TYPE => mret tt
   | pb.UNSUBSCRIBE_TYPE => mret tt
   | pb.GENERATE_ID_TYPE => mret tt
   | pb.NANO_PAY_TYPE => mret tt
   | _ => mfail ErrUnsupportedTxType
   end)%M.

(** The donation record staged at an adjustment boundary. *)
Definition persist_donation (height : Z) : M unit :=
  (donation <- reads (fun cs => CalcNextDonation cs height) ;;
   w <- lift (Donation_Serialize donation []) ;;
   on_st (BatchPut (DonationKey height) w))%M.

Definition persist (b : Block) : M unit :=
  (let height := Block_Height b in
   _ <- on_st NewBatch ;;
   let headerHash := Block_Hash b in
   (* batch put header *)
   headerBuffer <- lift (Block_Trim b []) ;;
   _ <- on_st (BatchPut (HeaderKey headerHash) headerBuffer) ;;
   (* batch put headerhash *)
   headerHashBuffer <- lift (Uint256_Serialize headerHash) ;;
   _ <- on_st (BatchPut (BlockhashKey height) headerHashBuffer) ;;
   (* batch put transactions *)
   _ <- for_each (Transactions b) (persist_transaction height) ;;
   (* StateRoot *)
   sr <- reads (fun cs => generateStateRoot cs b (negb (height =? 0)) true) ;;
   let states := sr.1 in
   let root := sr.2 in
   headerRoot <- lift (Uint256ParseFromBytes
                         (pb.StateRoot (block.UnsignedHeader (Header b)))) ;;
   if negb (Uint256_CompareTo root headerRoot =? 0)
   then mfail (ErrStateRootNotEqual root headerRoot)
   else
     _ <- on_st (BatchPut CurrentStateTrie (Uint256_ToArray root)) ;;
     (* batch put donation *)
     m <- lift (u32_rem height (u32 (RewardAdjustInterval cfg))) ;;
     _ <- (if m =? 0 then persist_donation height else mret tt) ;;
     (* batch put currentblockhash *)
     headerHashBuffer <- lift (WriteUint32 headerHashBuffer height) ;;
     _ <- on_st (BatchPut CurrentBlockHashKey headerHashBuffer) ;;
     _ <- on_st BatchCommit ;;
     modify (set_States (Some states)))%M.

Definition PruneStatesLowMemory (full : bool) : M unit :=
  (state <- reads (NewStateDB EmptyUint256) ;;
   on_st (StateDB_PruneStatesLowMemory state full))%M.

Definition SaveBlock (b : Block) (fastAdd : bool) : M unit :=
  (_ <- persist b ;;
   _ <- modify (set_pointer (Block_Hash b) (Block_Height b)) ;;
   _ <- modify (fun cs =>
          if currentBlockHeight cs >? BlockHeaderCacheSize cfg
          then set_headerCache
                 (RemoveCachedHeader (headerCache cs)
                    (currentBlockHeight cs - BlockHeaderCacheSize cfg)) cs
          else cs) ;;
   _ <- modify (fun cs =>
          set_headerCache (AddHeaderToCache (headerCache cs) (Header b)) cs) ;;
   if LivePruning cfg
   then if decide (StatePruningMode cfg = "lowmem"%string)
        then PruneStatesLowMemory false
        else mret tt
   else mret tt)%M.

(** ** Historical state roots *)

(** [for i := fromHeight; i <= toHeight; i++] over [uint32]: the counter
    wraps around, so the loop is driven by fuel; [None] is a run that has
    not returned within the fuel. *)
Fixpoint GetStateRoots_loop (fuel : nat) (cs : ChainStore) (i toHeight : Z)
    (roots : list Uint256) : option (result (list Uint256)) :=
  match fuel with
  | O => None
  | S fuel' =>
      if i <=? toHeight then
        match GetBlockHash cs i with
        | Ok headerHash =>
            match GetHeader cs headerHash with
            | Ok header =>
                match Uint256ParseFromBytes
                        (pb.StateRoot (block.UnsignedHeader header)) with
                | Ok stateRoot =>
                    GetStateRoots_loop fuel' cs (u32 (i + 1)) toHeight
                      (roots ++ [stateRoot])
                | Err e => Some (Err e)
                | Panic => Some Panic
                end
            | Err e => Some (Err e)
            | Panic => Some Panic
            end
        | Err e => Some (Err e)
        | Panic => Some Panic
        end
      else Some (Ok roots)
  end.

Definition GetStateRoots (fuel : nat) (cs : ChainStore) (fromHeight toHeight : Z)
  : option (result (list Uint256)) :=
  if toHeight <? fromHeight
  then Some (Err (ErrHeightRange toHeight fromHeight))
  else GetStateRoots_loop fuel cs fromHeight toHeight [].

(** Whether a run of [GetStateRoots] returned a list of roots. *)
Definition returns_roots (o : option (result (list Uint256))) : bool :=
  match o with
  | Some (Ok _) => true
  | _ => false
  end.

(** ** Start-up *)

(** [ResetDB]: a batch that deletes every key; the results of [NewBatch] and
    [BatchDelete] are not looked at. *)
Definition ResetDB : M unit :=
  (fun cs =>
     let s := (NewBatch (st cs)).1 in
     let s := foldl (fun s k => (BatchDelete k s).1) s (iterate_keys s) in
     on_st BatchCommit (set_st s cs)).

(** [cs.States, err = NewStateDB(root, cs)]: the field takes the returned
    pointer, nil next to an error. *)
Definition assign_States (root : Uint256) : M unit :=
  fun cs =>
    match NewStateDB root cs with
    | Ok s => (set_States (Some s) cs, Ok tt)
    | Err e => (set_States None cs, Err e)
    | Panic => (cs, Panic)
    end.

Definition InitLedgerStoreWithGenesisBlock (genesisBlock : Block) : M Z :=
  (version <- reads (fun cs =>
                match Get (st cs) VersionKey with
                | Ok v => Ok v
                | _ => Ok [x00]
                end) ;;
   v0 <- lift (match version with v :: _ => Ok v | [] => Panic end) ;;
   if decide (v0 ≠ DBVersion cfg) then
     _ <- wrap_error ErrResetDB ResetDB ;;
     let root := EmptyUint256 in
     _ <- assign_States root ;;
     _ <- persist genesisBlock ;;
     _ <- on_st (Put VersionKey [DBVersion cfg]) ;;
     _ <- modify (fun cs =>
            set_headerCache
              (AddHeaderToCache (headerCache cs) (Header genesisBlock)) cs) ;;
     _ <- modify (fun cs => set_pointer (Block_Hash genesisBlock) 0 cs) ;;
     mret 0
   else
     inStore <- reads (fun cs => IsBlockInStore cs (Block_Hash genesisBlock)) ;;
     if negb inStore then mfail ErrGenesisNotInStore
     else
       (* the pointer fields take what the call returned, also next to an error *)
       _ <- (fun cs =>
               let r := getCurrentBlockHashFromDB cs in
               (set_pointer r.1.1 r.1.2 cs, r.2)) ;;
       currentHeader <- reads (fun cs => GetHeader cs (currentBlockHash cs)) ;;
       _ <- modify (fun cs =>
              set_headerCache (AddHeaderToCache (headerCache cs) currentHeader) cs) ;;
       fun cs =>
         match GetCurrentBlockStateRoot cs with
         | Ok root =>
             (_ <- assign_States root ;;
              _ <- (if decide (StatePruningMode cfg = "lowmem"%string)
                    then PruneStatesLowMemory true
                    else if decide (StatePruningMode cfg = "none"%string)
                    then mret tt
                    else mfail (ErrUnknownPruningMode (StatePruningMode cfg))) ;;
              reads (fun cs => Ok (currentBlockHeight cs))) cs
         | Err _ => (cs, Ok 0)
         | Panic => (cs, Panic)
         end)%M.

(** ** Vocabulary of the statements *)

(** The receiver with [ws] staged in the open batch and nothing else
    touched. *)
Definition staged (ws : list (Key * option bytes)) (cs : ChainStore)
  : ChainStore :=
  set_st (mkStore (durable (st cs)) ws (healthy (st cs))) cs.

(** The record [persist] stages for one transaction. *)
Definition tx_write (height : Z) (txn : Transaction) : Key * option bytes :=
  (TransactionKey (Txn_Hash txn), Some (PutUint32 height ++ Txn_encode txn)).

(** What [persist] has staged when it calls the state transition: the
    trimmed header, the height index and the transaction records. *)
Definition block_writes (b : Block) : list (Key * option bytes) :=
  [(HeaderKey (Block_Hash b), Some (Block_encode_trimmed b));
   (BlockhashKey (Block_Height b), Some (Block_Hash b))]
  ++ (tx_write (Block_Height b) <$> Transactions b).

(** The donation record [persist] stages at an adjustment boundary; nothing
    at another height. *)
Definition donation_writes (cs : ChainStore) (height : Z)
  : result (list (Key * option bytes)) :=
  (m <- u32_rem height (u32 (RewardAdjustInterval cfg)) ;;
   if m =? 0 then
     donation <- CalcNextDonation cs height ;;
     w <- Donation_Serialize donation [] ;;
     Ok [(DonationKey height, Some w)]
   else Ok [])%result.

(** The chain-pointer record, the last write of the batch. *)
Definition pointer_write (b : Block) : Key * option bytes :=
  (CurrentBlockHashKey, Some (Block_Hash b ++ PutUint32 (Block_Height b))).

(** The whole batch of a block whose computed root is [root]. *)
Definition persist_writes (b : Block) (root : Uint256)
    (dw : list (Key * option bytes)) : list (Key * option bytes) :=
  block_writes b ++ [(CurrentStateTrie, Some root)] ++ dw ++ [pointer_write b].

(** The receiver after the batch [ws] was committed and the state view
    replaced by [states]. *)
Definition committed (ws : list (Key * option bytes)) (states : StateDB)
    (cs : ChainStore) : ChainStore :=
  set_States (Some states)
    (set_st (mkStore (foldl apply_write (durable (st cs)) ws) []
               (healthy (st cs))) cs).

(** Nothing became durable and no in-memory field moved between [cs] and
    [cs']: only the open batch may differ. *)
Definition nothing_committed (cs cs' : ChainStore) : Prop :=
  durable (st cs') = durable (st cs)
  /\ currentBlockHeight cs' = currentBlockHeight cs
  /\ currentBlockHash cs' = currentBlockHash cs
  /\ States cs' = States cs
  /\ headerCache cs' = headerCache cs.

Definition recognized (txn : Transaction) : Prop :=
  Txn_PayloadType txn ∈ recognized_kinds.

#[global] Instance recognized_dec (txn : Transaction) : Decision (recognized txn).
Proof. unfold recognized. apply _. Defined.

(** ** Pruning cursors *)

(** [getPruningStartHeight] returns [(refCountStartHeight,
    pruningStartHeight)]: 0 for a cursor that cannot be read, the stored
    height plus one, as a [uint32], for one that can. *)
Definition getPruningStartHeight (cs : ChainStore) : result (Z * Z) :=
  (refCountStartHeight <-
     match Get (st cs) TrieRefCountHeightKey with
     | Ok heightBuffer => h <- Uint32 heightBuffer ;; Ok (u32 (h + 1))
     | Err _ => Ok 0
     | Panic => Panic
     end ;;
   pruningStartHeight <-
     match Get (st cs) TriePrunedHeightKey with
     | Ok heightBuffer => h <- Uint32 heightBuffer ;; Ok (u32 (h + 1))
     | Err _ => Ok 0
     | Panic => Panic
     end ;;
   Ok (refCountStartHeight, pruningStartHeight))%result.

Definition GetPruningStartHeight (cs : ChainStore) : result (Z * Z) :=
  getPruningStartHeight cs.

Definition getCompactHeight (cs : ChainStore) : result Z :=
  match Get (st cs) TrieCompactHeightKey with
  | Ok heightBuffer => Uint32 heightBuffer
  | Err _ => Ok 0
  | Panic => Panic
  end.

Definition persistCompactHeight (height : Z) : M unit :=
  let heightBuffer := PutUint32 height in
  on_st (Put TrieCompactHeightKey heightBuffer).

(** ** Further vocabulary *)

(** The keys a block's batch writes. *)
Definition persist_keys (b : Block) : list Key :=
  [HeaderKey (Block_Hash b); BlockhashKey (Block_Height b);
   CurrentStateTrie; DonationKey (Block_Height b); CurrentBlockHashKey]
  ++ ((fun txn => TransactionKey (Txn_Hash txn)) <$> Transactions b).

(** The version bytes start-up looks at: what is stored under the version
    key, and the single byte 0 when nothing can be read. *)
Definition stored_version (cs : ChainStore) : bytes :=
  match Get (st cs) VersionKey with
  | Ok version => version
  | _ => [x00]
  end.

(** The header at a height declares the root [stateRoot]. *)
Definition declares_root (cs : ChainStore) (height : Z) (stateRoot : Uint256)
  : Prop :=
  exists headerHash header,
    GetBlockHash cs height = Ok headerHash
    /\ GetHeader cs headerHash = Ok header
    /\ Uint256ParseFromBytes (pb.StateRoot (block.UnsignedHeader header))
       = Ok stateRoot.

(** The heights [fromHeight], ..., [toHeight]. *)
Definition heights (fromHeight toHeight : Z) : list Z :=
  seqZ fromHeight (toHeight - fromHeight + 1).


End Store.

(** ** A small instance to run the store on *)

(** A toy instance of the collaborators: transactions are their own wire
    form (a kind tag followed by a body), a hash is the wire form padded to
    32 bytes, the trimmed block is the length-prefixed header followed by the
    count and the hashes of its transactions, and the state transition
    answers with a root derived from the number of transactions. *)
Module Demo.

Definition pad32 (bs : bytes) : bytes := take 32 (bs ++ replicate 32 x00).

Definition kind_of_tag (z : Z) : pb.PayloadType :=
  match z with
  | 0 => pb.COINBASE_TYPE
  | 1 => pb.TRANSFER_ASSET_TYPE
  | 2 => pb.SIG_CHAIN_TXN_TYPE
  | 3 => pb.REGISTER_NAME_TYPE
  | 4 => pb.TRANSFER_NAME_TYPE
  | 5 => pb.DELETE_NAME_TYPE
  | 6 => pb.SUBSCRIBE_TYPE
  | 7 => pb.UNSUBSCRIBE_TYPE
  | 8 => pb.GENERATE_ID_TYPE
  | 9 => pb.NANO_PAY_TYPE
  | 10 => pb.ISSUE_ASSET_TYPE
  | _ => pb.UNKNOWN_TYPE z
  end.

#[export] Instance types : Types := {|
  Transaction := bytes;
  StateDB := Uint256;
  Account := Z;
  HeaderCache := list block.Header
|}.

Definition header_encode (h : block.Header) : bytes :=
  PutUint32 (pb.Height (block.UnsignedHeader h))
  ++ pb.StateRoot (block.UnsignedHeader h).

Definition header_decode (dt : bytes) : result block.Header :=
  if decide (4 <= length dt)%nat
  then (h <- Uint32 dt ;;
        Ok (block.mkHeader (pb.mkUnsignedHeader h [] (drop 4 dt) 0) []))%result
  else Err ErrEOF.

Definition var_bytes (bs : bytes) : bytes :=
  byte_of_Z (Z.of_nat (length bs)) :: bs.

Definition read_var_bytes (bs : bytes) : result bytes :=
  match bs with
  | [] => Err ErrEOF
  | n :: rest =>
      if decide (Z.to_nat (Z_of_byte n) <= length rest)%nat
      then Ok (take (Z.to_nat (Z_of_byte n)) rest)
      else Err ErrEOF
  end.

Fixpoint chunks32 (n : nat) (bs : bytes) : list bytes :=
  match n with
  | O => []
  | S n' => take 32 bs :: chunks32 n' (drop 32 bs)
  end.

Definition txs_of (b : @Block types) : list bytes := Transactions b.

Definition encode_trimmed (b : @Block types) : bytes :=
  var_bytes (header_encode (Header b))
  ++ PutUint32 (Z.of_nat (length (txs_of b)))
  ++ concat (pad32 <$> txs_of b).

Definition decode_trimmed (bs : bytes) : result (@Block types) :=
  (dt <- read_var_bytes bs ;;
   h <- header_decode dt ;;
   cr <- ReadUint32 (drop (S (length dt)) bs) ;;
   Ok (mkBlock h (chunks32 (Z.to_nat cr.1) cr.2 : list Transaction)))%result.

Definition transition_root (b : @Block types) : Uint256 :=
  replicate 32 (byte_of_Z (Z.of_nat (length (txs_of b)))).

#[export] Instance collaborators : @Collaborators types := {|
  Txn_PayloadType := fun txn : @Transaction types =>
    match txn with
    | k :: _ => kind_of_tag (Z_of_byte k)
    | [] => pb.UNKNOWN_TYPE (-1)
    end;
  Txn_Hash := fun txn : @Transaction types => pad32 txn;
  Txn_encode := fun txn : @Transaction types => txn;
  Txn_Unmarshal := fun bs => Ok (bs : @Transaction types);
  Block_Hash := fun b => pad32 (header_encode (Header b));
  Block_encode_trimmed := encode_trimmed;
  Block_FromTrimmedData := decode_trimmed;
  ReadVarBytes := read_var_bytes;
  Header_Unmarshal := header_decode;
  NewStateDB := fun root _ => Ok root;
  generateStateRoot := fun _ b _ _ => Ok (transition_root b, transition_root b);
  GetOrNewAccount := fun _ _ => 1000;
  Account_GetBalance := fun a _ => a;
  StateDB_PruneStatesLowMemory := fun _ _ s => (s, Ok tt);
  ToScriptHash := fun _ => Ok [];
  AddHeaderToCache := fun hc h => h :: hc;
  RemoveCachedHeader := fun hc height =>
    filter (fun h => pb.Height (block.UnsignedHeader h) ≠ height) hc
|}.

Definition config : Config := {|
  DBVersion := x01;
  RewardAdjustInterval := 10;
  DonationAddress := "treasury";
  DonationAdjustDividendFactor := 1;
  DonationAdjustDivisorFactor := 2;
  NKNAssetID := EmptyUint256;
  LivePruning := true;
  StatePruningMode := "lowmem";
  BlockHeaderCacheSize := 5
|}.

Definition header (height : Z) (root : bytes) : block.Header :=
  block.mkHeader (pb.mkUnsignedHeader height [] root 0) [].

(** A fresh store, as [NewLedgerStore] builds it. *)
Definition empty_store : @ChainStore types := {|
  st := mkStore ∅ [] true;
  headerCache := [];
  States := None;
  currentBlockHash := EmptyUint256;
  currentBlockHeight := 0
|}.

(** Genesis: one coinbase transaction, declaring the root the transition
    computes. *)
Definition genesis : Block :=
  mkBlock (header 0 (replicate 32 x01)) [[x00; x07]].

(** A block at height 1 with a transfer and a name registration. *)
Definition block1 : Block :=
  mkBlock (header 1 (replicate 32 x02)) [[x01; x0a]; [x03; x0b]].

(** The same transactions under a root the transition does not compute. *)
Definition block1_bad_root : Block :=
  mkBlock (header 1 (replicate 32 xff)) [[x01; x0a]; [x03; x0b]].

(** A block carrying a transaction of kind 99. *)
Definition block1_bad_kind : Block :=
  mkBlock (header 1 (replicate 32 x02)) [[x01; x0a]; [x63; x0b]].

(** A block at the largest height a [uint32] holds, with no transaction. *)
Definition block_max : Block :=
  mkBlock (header MaxUint32 (replicate 32 x00)) [].

(** What the trimmed form of [block1] decodes to: its header and, for each
    transaction, a stub that only knows its hash. *)
Definition block1_trimmed : Block :=
  mkBlock (header 1 (replicate 32 x02))
    [pad32 [x01; x0a]; pad32 [x03; x0b]].

(** The store after start-up on [genesis]. *)
Definition booted : ChainStore :=
  (InitLedgerStoreWithGenesisBlock config genesis empty_store).1.

(** [booted] after [block1] was saved. *)
Definition saved1 : ChainStore :=
  (SaveBlock config block1 false booted).1.

(** [booted] nine blocks later, the height at which the next donation is
    computed for height 10. *)
Definition before_adjustment : ChainStore :=
  set_pointer (currentBlockHash booted) 9 booted.

(** [booted] after [block_max] was saved. *)
Definition at_max : ChainStore :=
  (SaveBlock config block_max false booted).1.

(** [booted] on a disk that lost the current-state-root key, state view
    not yet built. *)
Definition rootless : ChainStore :=
  set_States None
    (set_st (mkStore (delete CurrentStateTrie (durable (st booted))) [] true)
       booted).

(** [rootless] with a chain pointer to a block the disk has no header of. *)
Definition dangling : ChainStore :=
  set_st (mkStore (<[CurrentBlockHashKey := replicate 32 xaa ++ PutUint32 5]>
                     (durable (st rootless))) [] true)
    rootless.

(** [config] with live pruning off and pruning mode "none". *)
Definition config_quiet : Config := {|
  DBVersion := x01;
  RewardAdjustInterval := 10;
  DonationAddress := "treasury";
  DonationAdjustDividendFactor := 1;
  DonationAdjustDivisorFactor := 2;
  NKNAssetID := EmptyUint256;
  LivePruning := false;
  StatePruningMode := "none";
  BlockHeaderCacheSize := 5
|}.

(** Blocks without transactions at the adjustment boundaries 10 and 20. *)
Definition block10 : Block :=
  mkBlock (header 10 (replicate 32 x00)) [].

Definition block20 : Block :=
  mkBlock (header 20 (replicate 32 x00)) [].

(** [booted] on an engine that cannot write. *)
Definition unwritable : ChainStore :=
  set_st (mkStore (durable (st booted)) [] false) booted.

(** A fresh receiver over the disk [persist] of [block1] left. *)
Definition reopened : ChainStore := {|
  st := st (persist config_quiet block1 booted).1;
  headerCache := [];
  States := None;
  currentBlockHash := EmptyUint256;
  currentBlockHeight := 0
|}.

(** A disk that holds the version marker and nothing else. *)
Definition version_only : ChainStore :=
  set_st (mkStore {[VersionKey := [x01]]} [] true) empty_store.

(** [saved1] on a disk with a truncated record of the first transaction of
    [block1], a truncated compacted height and an empty version value. *)
Definition truncated : ChainStore :=
  set_st (mkStore (<[TransactionKey (pad32 [x01; x0a]) := [x01; x00]]>
                     (<[TrieCompactHeightKey := [x07]]>
                        (<[VersionKey := []]> (durable (st saved1)))))
            [] true)
    saved1.

(** What the trimmed form of [genesis] decodes to. *)
Definition genesis_trimmed : Block :=
  mkBlock (header 0 (replicate 32 x01)) [pad32 [x00; x07]].

(** The first transaction of [block1]. *)
Definition transfer1 : Transaction := [x01; x0a].

(** The root declared at heights 0 and 1 of [saved1]. *)
Definition saved1_root (height : Z) : Uint256 :=
  if height =? 0 then replicate 32 x01 else replicate 32 x02.


End Demo.

Section Properties.

Context {Ty : Types} {Co : Collaborators}.
Variable cfg : Config.

(** *** Steps of the pipeline *)

Ltac kind_cases H :=
  first
    [ exfalso; apply H; repeat constructor
    | exfalso;
      repeat (apply elem_of_cons in H as [H | H]; [discriminate H |]);
      apply elem_of_nil in H; exact H ].

Lemma persist_transaction_steps (height : Z) (txn : Transaction) (cs : ChainStore) :
  persist_transaction height txn cs =
  (set_st (mkStore (durable (st cs)) (batch (st cs) ++ [tx_write height txn])
             (healthy (st cs))) cs,
   if decide (recognized txn) then Ok tt else Err ErrUnsupportedTxType).
Proof.
  destruct (decide (recognized txn)) as [H | H];
    unfold recognized, recognized_kinds in H;
    unfold persist_transaction, mbind, lift, on_st; cbn;
    destruct (Txn_PayloadType txn); cbn; try reflexivity; kind_cases H.
Qed.

Lemma set_st_batch_nil (cs : ChainStore) :
  set_st (mkStore (durable (st cs)) (batch (st cs) ++ []) (healthy (st cs))) cs
  = cs.
Proof.
  destruct cs as [s hc sd ch cht]; destruct s as [d bt h]; cbn.
  unfold set_st; cbn. by rewrite app_nil_r.
Qed.

(** Every transaction recognized: the loop stages one record each. *)
Lemma for_each_persist_transaction (height : Z) (txs : list Transaction) :
  Forall recognized txs ->
  forall cs : ChainStore,
    for_each txs (persist_transaction height) cs =
    (set_st (mkStore (durable (st cs))
               (batch (st cs) ++ (tx_write height <$> txs))
               (healthy (st cs))) cs,
     Ok tt).
Proof.
  induction 1 as [| txn txs Hk _ IH]; intros cs.
  - cbn. unfold mret. by rewrite set_st_batch_nil.
  - cbn [for_each]. unfold mbind at 1.
    rewrite persist_transaction_steps.
    destruct (decide (recognized txn)) as [_ | Hn]; [| by destruct Hn].
    rewrite IH. cbn. unfold set_st; cbn.
    by rewrite <- app_assoc.
Qed.

(** One transaction of another kind: the loop stops with the error, having
    staged records only. *)
Lemma for_each_persist_transaction_unsupported (height : Z)
    (txs : list Transaction) :
  Exists (fun txn => ~ recognized txn) txs ->
  forall cs : ChainStore,
    exists ws,
      for_each txs (persist_transaction height) cs =
      (set_st (mkStore (durable (st cs)) ws (healthy (st cs))) cs,
       Err ErrUnsupportedTxType).
Proof.
  induction txs as [| txn txs IH]; intros Hex cs.
  - by apply Exists_nil in Hex.
  - cbn [for_each]. unfold mbind at 1.
    rewrite persist_transaction_steps.
    destruct (decide (recognized txn)) as [Hk | Hn].
    + apply Exists_cons in Hex as [Hex | Hex]; [by destruct Hex |].
      destruct (IH Hex
        (set_st (mkStore (durable (st cs)) (batch (st cs) ++ [tx_write height txn])
                   (healthy (st cs))) cs)) as [ws Hws].
      exists ws. rewrite Hws. reflexivity.
    + eexists. reflexivity.
Qed.

Lemma nothing_committed_staged (cs : ChainStore) (ws : list (Key * option bytes)) :
  nothing_committed cs
    (set_st (mkStore (durable (st cs)) ws (healthy (st cs))) cs).
Proof. repeat split. Qed.

(** A block with a transaction of another kind: [persist] stops in the loop. *)
Lemma persist_unsupported (b : Block) (cs : ChainStore) :
  Exists (fun txn => ~ recognized txn) (Transactions b) ->
  exists ws,
    persist cfg b cs =
    (set_st (mkStore (durable (st cs)) ws (healthy (st cs))) cs,
     Err ErrUnsupportedTxType).
Proof.
  intros Hex.
  unfold persist, mbind, on_st, lift; cbn.
  match goal with
  | |- context [for_each ?l (persist_transaction ?h) ?s] =>
      destruct (for_each_persist_transaction_unsupported h l Hex s) as [ws Hws];
      rewrite Hws
  end.
  exists ws. reflexivity.
Qed.

(** [persist] on a block of recognized transactions, path by path. *)
Lemma persist_recognized (b : Block) (cs : ChainStore) :
  Forall recognized (Transactions b) ->
  persist cfg b cs =
  let cs1 := staged (block_writes b) cs in
  match generateStateRoot cs1 b (negb (Block_Height b =? 0)) true with
  | Ok sr =>
      match Uint256ParseFromBytes
              (pb.StateRoot (block.UnsignedHeader (Header b))) with
      | Ok headerRoot =>
          if decide (sr.2 = headerRoot) then
            match donation_writes cfg cs (Block_Height b) with
            | Ok dw =>
                if healthy (st cs)
                then (committed (persist_writes b sr.2 dw) sr.1 cs, Ok tt)
                else (staged (persist_writes b sr.2 dw) cs, Err ErrIO)
            | Err e =>
                (staged (block_writes b ++ [(CurrentStateTrie, Some sr.2)]) cs,
                 Err e)
            | Panic =>
                (staged (block_writes b ++ [(CurrentStateTrie, Some sr.2)]) cs,
                 Panic)
            end
          else (cs1, Err (ErrStateRootNotEqual sr.2 headerRoot))
      | Err e => (cs1, Err e)
      | Panic => (cs1, Panic)
      end
  | Err e => (cs1, Err e)
  | Panic => (cs1, Panic)
  end.
Proof.
  intros Hall.
  unfold persist, mbind, on_st, lift, reads, modify; cbn.
  rewrite (for_each_persist_transaction _ _ Hall). cbn.
  match goal with
  | |- context [generateStateRoot ?s _ _ _] =>
      change s with (staged (block_writes b) cs)
  end.
  destruct (generateStateRoot _ _ _ _) as [sr | e | ]; [| reflexivity ..].
  destruct (Uint256ParseFromBytes _) as [hr | e | ]; [| reflexivity ..].
  unfold Uint256_CompareTo.
  destruct (decide (sr.2 = hr)) as [Heq | Hne]; cbn; [| reflexivity].
  unfold donation_writes.
  destruct (u32_rem _ _) as [m | e | ]; cbn; [| reflexivity ..].
  unfold committed, persist_writes, pointer_write, staged.
  destruct (m =? 0); cbn.
  - unfold persist_donation, mbind, reads, lift, on_st; cbn.
    match goal with
    | |- context [CalcNextDonation _ ?s _] =>
        change (CalcNextDonation cfg s (Block_Height b))
          with (CalcNextDonation cfg cs (Block_Height b))
    end.
    destruct (CalcNextDonation _ _ _) as [d | e | ]; cbn; [| reflexivity ..].
    unfold BatchCommit; cbn.
    destruct (healthy (st cs)) eqn:Hh; cbn;
      unfold set_States, set_st; cbn; rewrite <- ?app_assoc; reflexivity.
  - unfold mret, BatchCommit; cbn.
    destruct (healthy (st cs)) eqn:Hh; cbn;
      unfold set_States, set_st; cbn; rewrite <- ?app_assoc; reflexivity.
Qed.

Lemma not_all_recognized (txs : list Transaction) :
  ~ Forall recognized txs -> Exists (fun txn => ~ recognized txn) txs.
Proof.
  intros H. apply not_Forall_Exists in H; [exact H |].
  intros txn. apply _.
Qed.

(** Atomicity under failure: whenever [persist] does not return nil, nothing
    became durable and no in-memory field moved. *)
Lemma persist_failure_atomic (b : Block) (cs cs' : ChainStore) (r : result unit) :
  persist cfg b cs = (cs', r) -> r <> Ok tt -> nothing_committed cs cs'.
Proof.
  intros Hp Hr.
  destruct (decide (Forall recognized (Transactions b))) as [Hall | Hnall].
  - rewrite (persist_recognized b cs Hall) in Hp. cbn zeta in Hp.
    repeat match type of Hp with
           | context [match ?x with _ => _ end] => destruct x
           end;
      injection Hp as <- <-;
      first [ by destruct Hr | apply nothing_committed_staged ].
  - apply not_all_recognized in Hnall.
    destruct (persist_unsupported b cs Hnall) as (ws & Hp1).
    rewrite Hp1 in Hp. injection Hp as <- <-.
    apply nothing_committed_staged.
Qed.

(** What a successful [persist] leaves behind: the whole batch of the block
    committed on top of the durable store, the state view replaced, the
    in-memory pointer and the header cache as they were. *)
Lemma persist_success (b : Block) (cs cs' : ChainStore) :
  persist cfg b cs = (cs', Ok tt) ->
  exists states root dw,
    Forall recognized (Transactions b)
    /\ generateStateRoot (staged (block_writes b) cs) b
         (negb (Block_Height b =? 0)) true = Ok (states, root)
    /\ Uint256ParseFromBytes
         (pb.StateRoot (block.UnsignedHeader (Header b))) = Ok root
    /\ donation_writes cfg cs (Block_Height b) = Ok dw
    /\ healthy (st cs) = true
    /\ cs' = committed (persist_writes b root dw) states cs.
Proof.
  intros Hp.
  destruct (decide (Forall recognized (Transactions b))) as [Hall | Hnall].
  - rewrite (persist_recognized b cs Hall) in Hp. cbn zeta in Hp.
    destruct (generateStateRoot _ _ _ _) as [[states root] | e | ] eqn:Hg;
      [| discriminate Hp ..].
    destruct (Uint256ParseFromBytes _) as [hr | e | ] eqn:Hu;
      [| discriminate Hp ..].
    cbn in Hp.
    destruct (decide (root = hr)) as [<- | Hne]; [| discriminate Hp].
    destruct (donation_writes _ _ _) as [dw | e | ] eqn:Hd;
      [| discriminate Hp ..].
    destruct (healthy (st cs)) eqn:Hh; [| discriminate Hp].
    injection Hp as <-.
    exists states, root, dw. by repeat split.
  - apply not_all_recognized in Hnall.
    destruct (persist_unsupported b cs Hnall) as (ws & Hp1).
    rewrite Hp1 in Hp. discriminate Hp.
Qed.

(** C2. A block holding a transaction whose payload kind is none of the
    eleven recognized kinds: [persist] fails with "unsupported transaction
    type", the batch is left uncommitted and nothing staged became durable. *)
Theorem persist_unsupported_transaction_type (b : Block) (cs : ChainStore) :
  (exists txn, txn ∈ Transactions b /\ Txn_PayloadType txn ∉ recognized_kinds) ->
  exists cs',
    persist cfg b cs = (cs', Err ErrUnsupportedTxType)
    /\ nothing_committed cs cs'.
Proof.
  intros (txn & Hin & Hkind).
  destruct (persist_unsupported b cs) as (ws & Hp).
  { apply Exists_exists. exists txn. split; [exact Hin | exact Hkind]. }
  eexists. split; [exact Hp |].
  apply nothing_committed_staged.
Qed.

(** C1. A block whose computed state root differs from the root its header
    declares: [persist] returns an error, the batch is never committed, and
    the durable store, [currentBlockHeight] and [currentBlockHash] keep their
    values. The error is "state root not equal" naming both roots whenever
    the loop over the transactions let the block through to the state
    transition, that is when every transaction is of a recognized kind; a
    block stopped in that loop never has its root computed by [persist]. *)
Theorem persist_state_root_mismatch (b : Block) (cs : ChainStore)
    (states : StateDB) (root headerRoot : Uint256) :
  generateStateRoot (staged (block_writes b) cs) b
    (negb (Block_Height b =? 0)) true = Ok (states, root) ->
  Uint256ParseFromBytes
    (pb.StateRoot (block.UnsignedHeader (Header b))) = Ok headerRoot ->
  root <> headerRoot ->
  exists cs' e,
    persist cfg b cs = (cs', Err e)
    /\ nothing_committed cs cs'
    /\ (Forall recognized (Transactions b) ->
        e = ErrStateRootNotEqual root headerRoot).
Proof.
  intros Hg Hu Hne.
  destruct (decide (Forall recognized (Transactions b))) as [Hall | Hnall].
  - exists (staged (block_writes b) cs), (ErrStateRootNotEqual root headerRoot).
    split; [| split; [apply nothing_committed_staged | done]].
    rewrite (persist_recognized b cs Hall). cbn zeta.
    rewrite Hg, Hu. cbn.
    destruct (decide (root = headerRoot)) as [Heq | _]; [by destruct Hne | done].
  - pose proof (not_all_recognized _ Hnall) as Hex.
    destruct (persist_unsupported b cs Hex) as (ws & Hp).
    eexists _, _. split; [exact Hp |].
    split; [apply nothing_committed_staged | by intros Hall].
Qed.


(** *** Reading back a committed batch *)

Lemma apply_write_lookup (m : gmap Key bytes) (w : Key * option bytes) (k : Key) :
  apply_write m w !! k = if decide (w.1 = k) then w.2 else m !! k.
Proof.
  destruct w as [k' [v |]]; cbn.
  - rewrite lookup_insert. by destruct (decide (k' = k)).
  - rewrite lookup_delete. by destruct (decide (k' = k)).
Qed.

Lemma foldl_apply_write_lookup (ws : list (Key * option bytes)) :
  forall (m : gmap Key bytes) (k : Key),
    foldl apply_write m ws !! k = write_lookup k ws (m !! k).
Proof.
  induction ws as [| w ws IH]; intros m k; cbn; [reflexivity |].
  by rewrite IH, apply_write_lookup.
Qed.

Lemma write_lookup_app (k : Key) (ws1 ws2 : list (Key * option bytes)) :
  forall d, write_lookup k (ws1 ++ ws2) d
            = write_lookup k ws2 (write_lookup k ws1 d).
Proof. induction ws1 as [| w ws1 IH]; intros d; cbn; [reflexivity | apply IH]. Qed.

Lemma write_lookup_other (k : Key) (ws : list (Key * option bytes)) :
  Forall (fun w => w.1 <> k) ws ->
  forall d, write_lookup k ws d = d.
Proof.
  induction 1 as [| w ws Hw _ IH]; intros d; cbn; [reflexivity |].
  rewrite IH. by destruct (decide (w.1 = k)).
Qed.

(** Among the records of the transactions of a block with no two
    transactions under one hash, the one of [txn] is read back under its
    hash. *)
Lemma write_lookup_tx_writes (height : Z) (txs : list Transaction) :
  (forall t1 t2, t1 ∈ txs -> t2 ∈ txs -> Txn_Hash t1 = Txn_Hash t2 -> t1 = t2) ->
  forall txn d,
    txn ∈ txs ->
    write_lookup (TransactionKey (Txn_Hash txn)) (tx_write height <$> txs) d
    = Some (PutUint32 height ++ Txn_encode txn).
Proof.
  induction txs as [| t txs IH]; intros Hinj txn d Hin.
  - by apply elem_of_nil in Hin.
  - cbn [fmap list_fmap write_lookup].
    destruct (decide (Txn_Hash txn ∈ (Txn_Hash <$> txs))) as [Hh | Hh].
    + apply list_elem_of_fmap in Hh as (t' & Heq & Hin').
      assert (txn = t') as <-.
      { apply Hinj; [exact Hin | by apply list_elem_of_further | exact Heq]. }
      apply IH; [| exact Hin'].
      intros t1 t2 H1 H2. apply Hinj; by apply list_elem_of_further.
    + rewrite write_lookup_other.
      * apply elem_of_cons in Hin as [-> | Hin].
        -- cbn. by destruct (decide (_ = _)).
        -- destruct Hh. apply list_elem_of_fmap. by exists txn.
      * apply Forall_forall. intros w Hw.
        apply list_elem_of_fmap in Hw as (t' & -> & Hin').
        cbn. intros [= Heq]. apply Hh.
        apply list_elem_of_fmap. exists t'. by split.
Qed.

(** *** The height prefix of a transaction record *)

Lemma Z_of_byte_of_Z (z : Z) : Z_of_byte (byte_of_Z z) = z mod 2 ^ 8.
Proof.
  unfold Z_of_byte, byte_of_Z. change (2 ^ 8) with 256.
  assert (H : 0 <= z mod 256 < 256) by (apply Z.mod_pos_bound; lia).
  destruct (Byte.of_N (Z.to_N (z mod 256))) as [b |] eqn:E.
  - apply Byte.to_of_N in E. rewrite E. apply Z2N.id. lia.
  - apply Byte.of_N_None_iff in E. lia.
Qed.

Lemma le32_bits (v : Z) :
  Z.lor (v mod 2 ^ 8)
    (Z.lor (Z.shiftl (Z.shiftr v 8 mod 2 ^ 8) 8)
       (Z.lor (Z.shiftl (Z.shiftr v 16 mod 2 ^ 8) 16)
              (Z.shiftl (Z.shiftr v 24 mod 2 ^ 8) 24)))
  = v mod 2 ^ 32.
Proof.
  apply Z.bits_inj'. intros n Hn.
  rewrite !Z.lor_spec, !Z.shiftl_spec by lia.
  destruct (Z_lt_le_dec n 8); [| destruct (Z_lt_le_dec n 16);
    [| destruct (Z_lt_le_dec n 24); [| destruct (Z_lt_le_dec n 32)]]].
  all: repeat first
    [ rewrite Z.mod_pow2_bits_low by lia
    | rewrite Z.mod_pow2_bits_high by lia
    | rewrite (Z.testbit_neg_r _ (n - _)) by lia
    | rewrite Z.shiftr_spec by lia ].
  all: rewrite ?Bool.orb_false_r, ?Bool.orb_false_l; try reflexivity.
  all: f_equal; lia.
Qed.

(** Reading back the four bytes [PutUint32] wrote gives the value as a
    [uint32], whatever follows them. *)
Lemma Uint32_PutUint32 (v : Z) (rest : bytes) :
  Uint32 (PutUint32 v ++ rest) = Ok (u32 v).
Proof.
  unfold PutUint32, Uint32, u32; cbn [app].
  rewrite !Z_of_byte_of_Z. f_equal. apply le32_bits.
Qed.

Lemma slice_from4_PutUint32 (v : Z) (rest : bytes) :
  slice_from4 (PutUint32 v ++ rest) = Ok rest.
Proof.
  unfold slice_from4, PutUint32; cbn [app length].
  destruct (decide _) as [_ | Hn]; [reflexivity | lia].
Qed.

Lemma map_result_fmap {A B C} (f : A -> B) (g : B -> result C) (l : list A) :
  map_result (fun x => g (f x)) l = map_result g (f <$> l).
Proof. induction l as [| x l IH]; cbn; [reflexivity | by rewrite IH]. Qed.

Lemma map_result_section {A B} (f : A -> B) (g : B -> result A) (l : list A) :
  (forall x, x ∈ l -> g (f x) = Ok x) ->
  map_result g (f <$> l) = Ok l.
Proof.
  induction l as [| x l IH]; intros Hg; cbn; [reflexivity |].
  rewrite Hg by apply list_elem_of_here. cbn.
  rewrite IH; [reflexivity |].
  intros y Hy. apply Hg. by apply list_elem_of_further.
Qed.

(** The donation step stages at most a donation record. *)
Lemma donation_writes_keys (cs : ChainStore) (height : Z)
    (dw : list (Key * option bytes)) :
  donation_writes cfg cs height = Ok dw ->
  Forall (fun w => w.1 = DonationKey height) dw.
Proof.
  unfold donation_writes.
  destruct (u32_rem _ _) as [m | |]; cbn; [| discriminate ..].
  destruct (m =? 0); [| intros [= <-]; constructor].
  destruct (CalcNextDonation _ _ _) as [d | |]; cbn; [| discriminate ..].
  intros [= <-]. repeat constructor.
Qed.

(** What is durable under the header key and the transaction keys of a
    block once its batch is committed. *)
Lemma persist_writes_header (b : Block) (root : Uint256)
    (dw : list (Key * option bytes)) (height : Z) (d : option bytes) :
  Forall (fun w => w.1 = DonationKey height) dw ->
  write_lookup (HeaderKey (Block_Hash b)) (persist_writes b root dw) d
  = Some (Block_encode_trimmed b).
Proof.
  intros Hdw. unfold persist_writes, block_writes.
  rewrite !write_lookup_app. cbn [write_lookup].
  rewrite (write_lookup_other _ dw).
  2:{ eapply Forall_impl; [exact Hdw |]. cbn. intros w -> [=]. }
  cbn. rewrite write_lookup_other.
  - repeat case_decide; congruence.
  - apply Forall_forall. intros w Hw.
    apply list_elem_of_fmap in Hw as (t & -> & _). cbn. intros [=].
Qed.

Lemma persist_writes_transaction (b : Block) (root : Uint256)
    (dw : list (Key * option bytes)) (height : Z) (d : option bytes)
    (txn : Transaction) :
  Forall (fun w => w.1 = DonationKey height) dw ->
  (forall t1 t2, t1 ∈ Transactions b -> t2 ∈ Transactions b ->
                 Txn_Hash t1 = Txn_Hash t2 -> t1 = t2) ->
  txn ∈ Transactions b ->
  write_lookup (TransactionKey (Txn_Hash txn)) (persist_writes b root dw) d
  = Some (PutUint32 (Block_Height b) ++ Txn_encode txn).
Proof.
  intros Hdw Hinj Hin. unfold persist_writes, block_writes.
  rewrite !write_lookup_app. cbn [write_lookup].
  rewrite (write_lookup_other _ dw).
  2:{ eapply Forall_impl; [exact Hdw |]. cbn. intros w -> [=]. }
  cbn. rewrite write_lookup_tx_writes by assumption.
  repeat case_decide; congruence.
Qed.

Lemma persist_writes_pointer (b : Block) (root : Uint256)
    (dw : list (Key * option bytes)) (d : option bytes) :
  write_lookup CurrentBlockHashKey (persist_writes b root dw) d
  = Some (Block_Hash b ++ PutUint32 (Block_Height b)).
Proof.
  unfold persist_writes. rewrite !write_lookup_app. cbn.
  repeat case_decide; congruence.
Qed.

Lemma Get_committed (ws : list (Key * option bytes)) (states : StateDB)
    (cs : ChainStore) (k : Key) :
  Get (st (committed ws states cs)) k =
  match write_lookup k ws (durable (st cs) !! k) with
  | Some v => Ok v
  | None => Err ErrNotFound
  end.
Proof.
  unfold Get.
  change (durable (st (committed ws states cs)))
    with (foldl apply_write (durable (st cs)) ws).
  by rewrite foldl_apply_write_lookup.
Qed.

(** C6. Round trip of [persist] followed by [GetBlock]: for a block whose
    trimmed form decodes to its header and the hashes of its transactions,
    whose transactions decode from their own serialization and of which no
    two share a hash, [GetBlock] under the hash of the block rebuilds the
    block, transactions included, from the trimmed header and the separately
    stored records, each decoded after its 4-byte height prefix. *)
Theorem GetBlock_after_persist (b trimmed : Block) (cs cs' : ChainStore) :
  persist cfg b cs = (cs', Ok tt) ->
  Block_FromTrimmedData (Block_encode_trimmed b) = Ok trimmed ->
  Header trimmed = Header b ->
  Txn_Hash <$> Transactions trimmed = Txn_Hash <$> Transactions b ->
  (forall txn, txn ∈ Transactions b -> Txn_Unmarshal (Txn_encode txn) = Ok txn) ->
  (forall t1 t2, t1 ∈ Transactions b -> t2 ∈ Transactions b ->
                 Txn_Hash t1 = Txn_Hash t2 -> t1 = t2) ->
  GetBlock cs' (Block_Hash b) = Ok b
  /\ forall txn, txn ∈ Transactions b ->
       getTx cs' (Txn_Hash txn) = Ok (txn, u32 (Block_Height b)).
Proof.
  intros Hp Hdec Hhdr Hhashes Htx Hinj.
  apply persist_success in Hp as (states & root & dw & _ & _ & _ & Hdw & _ & ->).
  apply donation_writes_keys in Hdw.
  assert (Hget : forall txn, txn ∈ Transactions b ->
            getTx (committed (persist_writes b root dw) states cs) (Txn_Hash txn)
            = Ok (txn, u32 (Block_Height b))).
  { intros txn Hin. unfold getTx. rewrite Get_committed.
    rewrite (persist_writes_transaction b root dw _ _ txn Hdw Hinj Hin).
    cbn [rbind].
    rewrite Uint32_PutUint32, slice_from4_PutUint32. cbn [rbind].
    by rewrite (Htx txn Hin). }
  split; [| exact Hget].
  unfold GetBlock. rewrite Get_committed.
  rewrite (persist_writes_header b root dw _ _ Hdw). cbn [rbind].
  rewrite Hdec. cbn [rbind].
  rewrite (map_result_fmap Txn_Hash
             (fun h => r <- getTx _ h ;; Ok r.1)%result).
  rewrite Hhashes.
  rewrite map_result_section.
  - cbn [rbind]. rewrite Hhdr. by destruct b.
  - intros txn Hin. cbn beta. by rewrite (Hget txn Hin).
Qed.


(** *** SaveBlock *)

(** Pruning goes through the engine and the state view only. *)
Lemma PruneStatesLowMemory_pointer (full : bool) (cs cs' : ChainStore)
    (r : result unit) :
  PruneStatesLowMemory full cs = (cs', r) ->
  currentBlockHeight cs' = currentBlockHeight cs
  /\ currentBlockHash cs' = currentBlockHash cs.
Proof.
  unfold PruneStatesLowMemory, mbind, reads, on_st.
  destruct (NewStateDB EmptyUint256 cs) as [state | e |]; cbn.
  all: intros [= <- _]; by split.
Qed.

(** C5. [SaveBlock] and the in-memory pointer. When [SaveBlock] returns nil,
    [currentBlockHeight] and [currentBlockHash] are the height and the hash
    of the block. The pointer moves only after the commit: [persist] itself
    leaves it alone; when [persist] returned nil the chain-pointer record of
    the block is durable; and when it did not, [SaveBlock] stops there with
    the outcome of [persist], the pointer and the durable store where they
    were. *)
Theorem SaveBlock_pointer (b : Block) (fastAdd : bool) (cs cs' : ChainStore)
    (r : result unit) :
  SaveBlock cfg b fastAdd cs = (cs', r) ->
  (r = Ok tt ->
   currentBlockHeight cs' = Block_Height b
   /\ currentBlockHash cs' = Block_Hash b)
  /\ exists cs1 r1,
       persist cfg b cs = (cs1, r1)
       /\ currentBlockHeight cs1 = currentBlockHeight cs
       /\ currentBlockHash cs1 = currentBlockHash cs
       /\ (r1 = Ok tt ->
           durable (st cs1) !! CurrentBlockHashKey
             = Some (Block_Hash b ++ PutUint32 (Block_Height b))
           /\ currentBlockHeight cs' = Block_Height b
           /\ currentBlockHash cs' = Block_Hash b)
       /\ (r1 <> Ok tt ->
           cs' = cs1 /\ r = r1 /\ durable (st cs') = durable (st cs)).
Proof.
  intros Hs.
  destruct (persist cfg b cs) as [cs1 r1] eqn:Hp.
  unfold SaveBlock in Hs. unfold mbind at 1 in Hs. rewrite Hp in Hs.
  destruct r1 as [[] | e |].
  - pose proof Hp as Hc.
    apply persist_success in Hc
      as (states & root & dw & _ & _ & _ & _ & _ & ->).
    assert (Hptr : currentBlockHeight cs' = Block_Height b
                   /\ currentBlockHash cs' = Block_Hash b).
    { unfold mbind, modify in Hs; cbn in Hs.
      destruct (LivePruning cfg).
      - destruct (decide (StatePruningMode cfg = "lowmem"%string)).
        + apply PruneStatesLowMemory_pointer in Hs as [-> ->].
          by destruct (_ >? _).
        + injection Hs as <- <-. by destruct (_ >? _).
      - injection Hs as <- <-. by destruct (_ >? _). }
    split; [by intros _ |].
    eexists _, _. split; [reflexivity |].
    split; [reflexivity |]. split; [reflexivity |].
    split; [| done]. intros _.
    split; [| exact Hptr].
    change (durable (st (committed (persist_writes b root dw) states cs)))
      with (foldl apply_write (durable (st cs)) (persist_writes b root dw)).
    by rewrite foldl_apply_write_lookup, persist_writes_pointer.
  - injection Hs as <- <-.
    destruct (persist_failure_atomic b cs cs1 (Err e) Hp) as (Hd & Hh & Hc & _);
      [done |].
    split; [done |]. exists cs1, (Err e). repeat split; try done.
  - injection Hs as <- <-.
    destruct (persist_failure_atomic b cs cs1 Panic Hp) as (Hd & Hh & Hc & _);
      [done |].
    split; [done |]. exists cs1, Panic. repeat split; try done.
Qed.

(** *** Donation accounting *)

Lemma i64_id (z : Z) : in_int64 z -> i64 z = z.
Proof.
  unfold in_int64, MinInt64, MaxInt64, i64. intros H.
  rewrite Z.mod_small; lia.
Qed.

Lemma quot_in_int64 (a b : Z) : 0 < b -> in_int64 a -> in_int64 (Z.quot a b).
Proof.
  unfold in_int64, MinInt64, MaxInt64. intros Hb Ha.
  destruct (Z_le_gt_dec 0 a) as [Hpos | Hneg].
  - rewrite Z.quot_div_nonneg by lia.
    pose proof (Z.div_pos a b Hpos Hb).
    assert (a / b <= a) by (apply Z.div_le_upper_bound; nia).
    lia.
  - replace a with (- - a) by lia. rewrite Z.quot_opp_l by lia.
    rewrite Z.quot_div_nonneg by lia.
    assert (0 <= - a / b) by (apply Z.div_pos; lia).
    assert (- a / b <= - a) by (apply Z.div_le_upper_bound; nia).
    lia.
Qed.

(** C3. [CalcNextDonation] at height 0 returns the record of height 0 and
    amount 0. At a height above 0 it fails with the error of [getDonation]
    when no previous record is retrieved, and with "invalid height to update
    donation" when the height of the retrieved record plus the reward
    adjustment interval (the [uint32] sum the code computes) is not the
    height asked for; so it succeeds only when that sum is exactly the
    height. *)
Theorem CalcNextDonation_height_gate (cs : ChainStore) :
  CalcNextDonation cfg cs 0 = Ok (NewDonation 0 0)
  /\ forall height, 0 < height ->
       (forall e, getDonation cfg cs = Err e ->
                  CalcNextDonation cfg cs height = Err e)
       /\ (forall lastDonation,
             getDonation cfg cs = Ok lastDonation ->
             u32 (Height lastDonation + u32 (RewardAdjustInterval cfg))
               <> height ->
             CalcNextDonation cfg cs height = Err ErrInvalidDonationHeight)
       /\ (forall d,
             CalcNextDonation cfg cs height = Ok d ->
             exists lastDonation,
               getDonation cfg cs = Ok lastDonation
               /\ u32 (Height lastDonation + u32 (RewardAdjustInterval cfg))
                  = height).
Proof.
  split; [reflexivity |].
  intros height Hh. unfold CalcNextDonation.
  destruct (Z.eqb_spec height 0) as [-> | _]; [lia |].
  split; [| split].
  - intros e ->. reflexivity.
  - intros lastDonation -> Hne. cbn.
    destruct (Z.eqb_spec
                (u32 (Height lastDonation + u32 (RewardAdjustInterval cfg)))
                height) as [Heq | _]; [by destruct Hne | reflexivity].
  - intros d. destruct (getDonation cfg cs) as [lastDonation | e |]; cbn;
      [| discriminate ..].
    destruct (Z.eqb_spec
                (u32 (Height lastDonation + u32 (RewardAdjustInterval cfg)))
                height) as [Heq | _]; cbn; [| discriminate].
    intros _. by exists lastDonation.
Qed.

(** C4. When [CalcNextDonation] succeeds at a height above 0 with treasury
    balance [X], the amount of the record is
    [((X * dividendFactor) / divisorFactor) / rewardAdjustInterval], each
    division truncating, and its height is the height asked for. The
    configured divisor and interval are positive, and the product
    [X * dividendFactor] fits the 64 bits of a [Fixed64]. *)
Theorem CalcNextDonation_amount (cs : ChainStore) (height : Z) (d : Donation)
    (donationAddress : Uint160) (X : Z) :
  0 < height ->
  CalcNextDonation cfg cs height = Ok d ->
  ToScriptHash (DonationAddress cfg) = Ok donationAddress ->
  treasury_balance cfg cs donationAddress = Ok X ->
  0 < DonationAdjustDivisorFactor cfg ->
  0 < RewardAdjustInterval cfg <= MaxInt64 ->
  in_int64 (X * DonationAdjustDividendFactor cfg) ->
  Amount d =
    Z.quot (Z.quot (X * DonationAdjustDividendFactor cfg)
              (DonationAdjustDivisorFactor cfg))
      (RewardAdjustInterval cfg)
  /\ Height d = height.
Proof.
  intros Hh Hcalc Haddr Hbal Hdiv Hint Hprod.
  unfold CalcNextDonation in Hcalc.
  destruct (Z.eqb_spec height 0) as [-> | _]; [lia |].
  destruct (getDonation cfg cs) as [lastDonation | e |]; cbn in Hcalc;
    [| discriminate ..].
  destruct (negb _); [discriminate |].
  rewrite Haddr in Hcalc. cbn in Hcalc. rewrite Hbal in Hcalc. cbn in Hcalc.
  unfold i64_div in Hcalc.
  destruct (Z.eqb_spec (DonationAdjustDivisorFactor cfg) 0) as [H0 | _];
    [lia |].
  cbn in Hcalc.
  assert (Hi : i64 (RewardAdjustInterval cfg) = RewardAdjustInterval cfg).
  { apply i64_id. unfold in_int64, MinInt64, MaxInt64 in *. lia. }
  rewrite Hi in Hcalc.
  destruct (Z.eqb_spec (RewardAdjustInterval cfg) 0) as [H0 | _]; [lia |].
  cbn in Hcalc. injection Hcalc as <-. cbn.
  split; [| reflexivity].
  rewrite (i64_id (X * _)) by exact Hprod.
  rewrite (i64_id (Z.quot (X * _) _)) by (by apply quot_in_int64).
  apply i64_id. apply quot_in_int64; [lia |]. by apply quot_in_int64.
Qed.

(** *** Lookups by hash *)

(** C7. [IsBlockInStore] answers false when no header is stored under the
    hash and when the header stored there has a height above
    [currentBlockHeight]; it answers true when the header stored there has a
    height at or below [currentBlockHeight]. *)
Theorem IsBlockInStore_spec (cs : ChainStore) (hash : Uint256) :
  (durable (st cs) !! HeaderKey hash = None ->
   IsBlockInStore cs hash = Ok false)
  /\ (forall header,
        GetHeader cs hash = Ok header ->
        pb.Height (block.UnsignedHeader header) > currentBlockHeight cs ->
        IsBlockInStore cs hash = Ok false)
  /\ (forall header,
        GetHeader cs hash = Ok header ->
        pb.Height (block.UnsignedHeader header) <= currentBlockHeight cs ->
        IsBlockInStore cs hash = Ok true).
Proof.
  unfold IsBlockInStore. split; [| split].
  - intros Hnone. unfold GetHeader, Get. by rewrite Hnone.
  - intros header -> Hgt.
    destruct (Z.gtb_spec (pb.Height (block.UnsignedHeader header))
                (currentBlockHeight cs)); [reflexivity | lia].
  - intros header -> Hle.
    destruct (Z.gtb_spec (pb.Height (block.UnsignedHeader header))
                (currentBlockHeight cs)); [lia | reflexivity].
Qed.

(** C9. [IsDoubleSpend] answers false for every transaction in every store:
    the store detects no double spend. *)
Theorem IsDoubleSpend_false (cs : ChainStore) (tx : Transaction) :
  IsDoubleSpend cs tx = false.
Proof. reflexivity. Qed.

(** *** Historical state roots *)

Lemma GetStateRoots_inverted (fuel : nat) (cs : ChainStore)
    (fromHeight toHeight : Z) :
  toHeight < fromHeight ->
  GetStateRoots fuel cs fromHeight toHeight
  = Some (Err (ErrHeightRange toHeight fromHeight)).
Proof.
  intros Hlt. unfold GetStateRoots.
  destruct (Z.ltb_spec toHeight fromHeight); [reflexivity | lia].
Qed.

(** One height below the largest [uint32]: the loop runs once and returns
    the root the header at that height declares. *)
Lemma GetStateRoots_single (n : nat) (cs : ChainStore) (height : Z)
    (headerHash : Uint256) (header : block.Header) (stateRoot : Uint256) :
  0 <= height < MaxUint32 ->
  GetBlockHash cs height = Ok headerHash ->
  GetHeader cs headerHash = Ok header ->
  Uint256ParseFromBytes (pb.StateRoot (block.UnsignedHeader header))
    = Ok stateRoot ->
  GetStateRoots (2 + n) cs height height = Some (Ok [stateRoot]).
Proof.
  unfold MaxUint32. intros Hh Hb Hg Hr. unfold GetStateRoots.
  destruct (Z.ltb_spec height height); [lia |].
  cbn [Nat.add GetStateRoots_loop].
  destruct (Z.leb_spec height height); [| lia].
  rewrite Hb, Hg, Hr.
  assert (Hw : u32 (height + 1) = height + 1).
  { unfold u32. apply Z.mod_small. lia. }
  rewrite Hw.
  destruct (Z.leb_spec (height + 1) height); [lia | reflexivity].
Qed.

(** With the largest [uint32] as upper end the condition [i <= toHeight]
    never fails, so the loop never leaves through its exit: no run returns
    a list of roots. *)
Lemma GetStateRoots_loop_MaxUint32 (fuel : nat) (cs : ChainStore) :
  forall (i : Z) (roots : list Uint256),
    i <= MaxUint32 ->
    returns_roots (GetStateRoots_loop fuel cs i MaxUint32 roots) = false.
Proof.
  induction fuel as [| fuel IH]; intros i roots Hi; cbn; [reflexivity |].
  destruct (Z.leb_spec i MaxUint32); [| lia].
  destruct (GetBlockHash cs i) as [headerHash | e |]; [| reflexivity ..].
  destruct (GetHeader cs headerHash) as [header | e |]; [| reflexivity ..].
  destruct (Uint256ParseFromBytes _) as [stateRoot | e |]; [| reflexivity ..].
  apply IH. unfold u32, MaxUint32.
  pose proof (Z.mod_pos_bound (i + 1) (2 ^ 32)). lia.
Qed.

Lemma GetStateRoots_MaxUint32 (fuel : nat) (cs : ChainStore) (fromHeight : Z) :
  returns_roots (GetStateRoots fuel cs fromHeight MaxUint32) = false.
Proof.
  unfold GetStateRoots.
  destruct (Z.ltb_spec MaxUint32 fromHeight); [reflexivity |].
  by apply GetStateRoots_loop_MaxUint32.
Qed.

(** *** Start-up *)

(** C10, amended. With the stored version matching the configured one, the
    genesis block in store, the chain pointer loaded and the header of the
    current block read, a failing read of the current state root makes
    [InitLedgerStoreWithGenesisBlock] return height 0 with a nil error: the
    failure is dropped, the pointer and the header cache are loaded, and the
    state view stays what it was. *)
Theorem InitLedgerStore_drops_state_root_error (genesisBlock : Block)
    (cs : ChainStore) (v : bytes) (blockHash : Uint256) (height : Z)
    (currentHeader : block.Header) (e : error) :
  Get (st cs) VersionKey = Ok (DBVersion cfg :: v) ->
  IsBlockInStore cs (Block_Hash genesisBlock) = Ok true ->
  getCurrentBlockHashFromDB cs = (blockHash, height, Ok tt) ->
  GetHeader cs blockHash = Ok currentHeader ->
  GetCurrentBlockStateRoot cs = Err e ->
  exists cs',
    InitLedgerStoreWithGenesisBlock cfg genesisBlock cs = (cs', Ok 0)
    /\ States cs' = States cs
    /\ st cs' = st cs
    /\ currentBlockHash cs' = blockHash
    /\ currentBlockHeight cs' = height
    /\ headerCache cs' = AddHeaderToCache (headerCache cs) currentHeader.
Proof.
  intros Hv Hin Hptr Hhdr Hroot.
  unfold InitLedgerStoreWithGenesisBlock, mbind, reads, lift, modify, mfail.
  rewrite Hv. cbn.
  destruct (decide (DBVersion cfg ≠ DBVersion cfg)) as [Hne | _];
    [by destruct Hne |].
  rewrite Hin. cbn. rewrite Hptr. cbn.
  change (GetHeader (set_pointer blockHash height cs) blockHash)
    with (GetHeader cs blockHash).
  rewrite Hhdr. cbn.
  match goal with
  | |- context [GetCurrentBlockStateRoot ?s] =>
      change (GetCurrentBlockStateRoot s) with (GetCurrentBlockStateRoot cs)
  end.
  rewrite Hroot.
  eexists. split; [reflexivity |]. by repeat split.
Qed.

End Properties.

(** ** Runs on the small instance *)

Section Runs.

Import Demo.

Ltac run := vm_compute; reflexivity.

(** The mismatch error of C1 on [block1_bad_root]. *)
Lemma persist_state_root_mismatch_witness :
  exists cs',
    persist config block1_bad_root booted
    = (cs', Err (ErrStateRootNotEqual (replicate 32 x02) (replicate 32 xff)))
    /\ durable (st cs') = durable (st booted).
Proof.
  destruct (@persist_state_root_mismatch types collaborators config
              block1_bad_root booted
              (replicate 32 x02) (replicate 32 x02) (replicate 32 xff))
    as (cs' & e & Hp & Hnc & He).
  - run.
  - run.
  - intros H. vm_compute in H. discriminate H.
  - exists cs'. rewrite <- He.
    + split; [exact Hp | apply Hnc].
    + repeat constructor.
Defined.

(** The kind error of C2 on [block1_bad_kind]. *)
Lemma persist_unsupported_transaction_type_witness :
  exists cs',
    persist config block1_bad_kind booted = (cs', Err ErrUnsupportedTxType)
    /\ durable (st cs') = durable (st booted).
Proof.
  destruct (@persist_unsupported_transaction_type types collaborators config
              block1_bad_kind booted) as (cs' & Hp & Hnc).
  - exists [x63; x0b]. split.
    + apply list_elem_of_further, list_elem_of_here.
    + intros H. vm_compute in H.
      repeat (apply elem_of_cons in H as [H | H]; [discriminate H |]).
      by apply elem_of_nil in H.
  - exists cs'. split; [exact Hp | apply Hnc].
Defined.

(** C3 at height 10 and height 7 of [before_adjustment], whose last record
    has height 0, under an interval of 10. *)
Lemma CalcNextDonation_height_gate_witness :
  CalcNextDonation config before_adjustment 7 = Err ErrInvalidDonationHeight
  /\ exists lastDonation,
       getDonation config before_adjustment = Ok lastDonation
       /\ u32 (Height lastDonation + u32 (RewardAdjustInterval config)) = 10.
Proof.
  destruct (@CalcNextDonation_height_gate types collaborators config
              before_adjustment) as [_ Hgate].
  split.
  - destruct (Hgate 7) as (_ & Hne & _); [lia |].
    apply (Hne (NewDonation 0 0)); [run |].
    intros H. vm_compute in H. discriminate H.
  - destruct (Hgate 10) as (_ & _ & Hok); [lia |].
    apply (Hok (NewDonation 10 50)). run.
Defined.

(** C4 on a treasury of 1000 with factors 1 and 2 and an interval of 10. *)
Lemma CalcNextDonation_amount_witness :
  Amount (NewDonation 10 50) = Z.quot (Z.quot (1000 * 1) 2) 10
  /\ Height (NewDonation 10 50) = 10.
Proof.
  apply (@CalcNextDonation_amount types collaborators config
           before_adjustment 10 (NewDonation 10 50) [] 1000).
  - lia.
  - run.
  - run.
  - run.
  - cbn. lia.
  - unfold MaxInt64. cbn. lia.
  - unfold in_int64, MinInt64, MaxInt64. cbn. lia.
Defined.

(** C5 on [block1] saved over [booted]. *)
Lemma SaveBlock_pointer_witness :
  currentBlockHeight saved1 = 1
  /\ currentBlockHash saved1 = Block_Hash block1.
Proof.
  destruct (@SaveBlock_pointer types collaborators config
              block1 false booted saved1 (Ok tt)) as [Hptr _].
  - run.
  - apply Hptr. reflexivity.
Defined.

(** C6 on [block1] persisted over [booted]. *)
Lemma GetBlock_after_persist_witness :
  GetBlock (persist config block1 booted).1 (Block_Hash block1) = Ok block1.
Proof.
  apply (@GetBlock_after_persist types collaborators config
           block1 block1_trimmed booted (persist config block1 booted).1).
  - run.
  - run.
  - run.
  - run.
  - intros txn _. reflexivity.
  - intros t1 t2 H1 H2 Heq.
    apply elem_of_cons in H1 as [-> | H1];
      [| apply list_elem_of_singleton in H1 as ->];
      (apply elem_of_cons in H2 as [-> | H2];
         [| apply list_elem_of_singleton in H2 as ->]);
      first [ reflexivity | vm_compute in Heq; discriminate Heq ].
Defined.

(** C7 on [saved1]: the genesis block and [block1] are in store, a hash
    with no header is not, and [block1] is not in store for a pointer still
    at height 0. *)
Lemma IsBlockInStore_spec_witness :
  IsBlockInStore saved1 (Block_Hash block1) = Ok true
  /\ IsBlockInStore saved1 (replicate 32 xaa) = Ok false
  /\ IsBlockInStore (set_pointer (currentBlockHash booted) 0 saved1)
       (Block_Hash block1) = Ok false.
Proof.
  split; [| split].
  - destruct (@IsBlockInStore_spec types collaborators
                saved1 (Block_Hash block1)) as (_ & _ & Hle).
    apply (Hle (Header block1)); [run | by vm_compute].
  - destruct (@IsBlockInStore_spec types collaborators
                saved1 (replicate 32 xaa)) as (Hnone & _).
    apply Hnone. run.
  - destruct (@IsBlockInStore_spec types collaborators
                (set_pointer (currentBlockHash booted) 0 saved1)
                (Block_Hash block1)) as (_ & Hgt & _).
    apply (Hgt (Header block1)); [run | by vm_compute].
Defined.

(** C8. [GetStateRoots] from the largest [uint32] height to itself, on a
    store that holds the block of that height: the header is there and
    declares a root, yet the call does not return that one root. The counter
    wraps to 0 after the first round, the loop goes on through the genesis
    block and stops at height 1, which the store does not hold, with the
    error of the lookup. *)
Theorem GetStateRoots_wraps_at_MaxUint32 :
  GetHeaderByHeight at_max MaxUint32 = Ok (Header block_max)
  /\ Uint256ParseFromBytes
       (pb.StateRoot (block.UnsignedHeader (Header block_max)))
     = Ok (replicate 32 x00)
  /\ forall n : nat,
       GetStateRoots (3 + n) at_max MaxUint32 MaxUint32 = Some (Err ErrNotFound).
Proof.
  split; [run |]. split; [run |].
  intros n. vm_compute. reflexivity.
Qed.

(** The claim C10 as stated, without the read of the header of the current
    block among its conditions, fails on [dangling]: the version matches,
    the genesis block is in store, the chain pointer loads, the read of the
    current state root fails, and the call returns the error of [GetHeader]
    instead of height 0 and nil. *)
Lemma InitLedgerStore_dangling_pointer_counterexample :
  ~ (forall (cs : ChainStore) (genesisBlock : Block) (v : bytes) (e : error),
       Get (st cs) VersionKey = Ok (DBVersion config :: v) ->
       IsBlockInStore cs (Block_Hash genesisBlock) = Ok true ->
       (getCurrentBlockHashFromDB cs).2 = Ok tt ->
       GetCurrentBlockStateRoot cs = Err e ->
       (InitLedgerStoreWithGenesisBlock config genesisBlock cs).2 = Ok 0).
Proof.
  intros H.
  specialize (H dangling genesis [] ErrNotFound).
  assert (Hrun : (InitLedgerStoreWithGenesisBlock config genesis dangling).2
                 = Err ErrNotFound) by run.
  rewrite Hrun in H.
  assert (Hno : Err ErrNotFound = Ok 0) by (apply H; run).
  discriminate Hno.
Defined.

(** C10, amended, on [rootless]. *)
Lemma InitLedgerStore_drops_state_root_error_witness :
  exists cs',
    InitLedgerStoreWithGenesisBlock config genesis rootless = (cs', Ok 0)
    /\ States cs' = None.
Proof.
  destruct (@InitLedgerStore_drops_state_root_error types collaborators config
              genesis rootless [] (Block_Hash genesis) 0 (Header genesis)
              ErrNotFound) as (cs' & Hinit & Hstates & _).
  - run.
  - run.
  - run.
  - run.
  - run.
  - exists cs'. split; [exact Hinit | exact Hstates].
Defined.

End Runs.

(** * Further properties of the store *)

Section Further.

Context {Ty : Types} {Co : Collaborators}.
Variable cfg : Config.

(** *** Fixed-width codecs *)

Lemma ReadUint32_PutUint32 (v : Z) (rest : bytes) :
  ReadUint32 (PutUint32 v ++ rest) = Ok (u32 v, rest).
Proof.
  unfold ReadUint32. rewrite Uint32_PutUint32.
  unfold PutUint32; cbn [app length rbind drop].
  destruct (decide _) as [_ | Hn]; [reflexivity | lia].
Qed.

Lemma i64_mod (z : Z) : i64 (z mod 2 ^ 64) = i64 z.
Proof. unfold i64. by rewrite Zplus_mod_idemp_l. Qed.

Lemma i64_in_int64 (z : Z) : in_int64 (i64 z).
Proof.
  unfold in_int64, MinInt64, MaxInt64, i64.
  pose proof (Z.mod_pos_bound (z + 2 ^ 63) (2 ^ 64)). lia.
Qed.

(** The eight bytes of a 64-bit value, low byte first, add up to it. *)
Lemma le64_sum (x : Z) :
  0 <= x < 2 ^ 64 ->
  fold_right (fun b acc => Z_of_byte b + 256 * acc) 0
    (map (fun i => byte_of_Z (Z.shiftr x (8 * Z.of_nat i))) (seq 0 8))
  = x.
Proof.
  intros Hx. cbn [seq map fold_right].
  rewrite !Z_of_byte_of_Z, !Z.shiftr_div_pow2 by lia.
  change (2 ^ 8) with 256.
  change (8 * Z.of_nat 0) with 0. change (8 * Z.of_nat 1) with 8.
  change (8 * Z.of_nat 2) with 16. change (8 * Z.of_nat 3) with 24.
  change (8 * Z.of_nat 4) with 32. change (8 * Z.of_nat 5) with 40.
  change (8 * Z.of_nat 6) with 48. change (8 * Z.of_nat 7) with 56.
  pose proof (Z.div_mod (x / 2 ^ 0) 256 ltac:(lia)) as H0.
  pose proof (Z.div_mod (x / 2 ^ 8) 256 ltac:(lia)) as H1.
  pose proof (Z.div_mod (x / 2 ^ 16) 256 ltac:(lia)) as H2.
  pose proof (Z.div_mod (x / 2 ^ 24) 256 ltac:(lia)) as H3.
  pose proof (Z.div_mod (x / 2 ^ 32) 256 ltac:(lia)) as H4.
  pose proof (Z.div_mod (x / 2 ^ 40) 256 ltac:(lia)) as H5.
  pose proof (Z.div_mod (x / 2 ^ 48) 256 ltac:(lia)) as H6.
  pose proof (Z.div_mod (x / 2 ^ 56) 256 ltac:(lia)) as H7.
  rewrite !Z.div_div in * by lia.
  change (2 ^ 0 * 256) with (2 ^ 8) in *.
  change (2 ^ 8 * 256) with (2 ^ 16) in *.
  change (2 ^ 16 * 256) with (2 ^ 24) in *.
  change (2 ^ 24 * 256) with (2 ^ 32) in *.
  change (2 ^ 32 * 256) with (2 ^ 40) in *.
  change (2 ^ 40 * 256) with (2 ^ 48) in *.
  change (2 ^ 48 * 256) with (2 ^ 56) in *.
  change (2 ^ 56 * 256) with (2 ^ 64) in *.
  assert (H8 : x / 2 ^ 64 = 0) by (apply Z.div_small; lia).
  rewrite Z.div_1_r in H0. change (2 ^ 0) with 1. rewrite Z.div_1_r.
  lia.
Qed.

Lemma Fixed64_roundtrip (w : bytes) (f : Z) (rest : bytes) :
  exists bs,
    Fixed64_Serialize w f = Ok (w ++ bs)
    /\ Fixed64_Deserialize (bs ++ rest) = Ok (i64 f, rest).
Proof.
  eexists. split; [reflexivity |].
  unfold Fixed64_Deserialize.
  set (bs := map _ (seq 0 8)).
  assert (Hlen : length bs = 8%nat) by reflexivity.
  destruct (decide _) as [_ | Hn]; [| rewrite length_app in Hn; lia].
  rewrite take_app_length' by exact Hlen.
  rewrite drop_app_length' by exact Hlen.
  subst bs. rewrite le64_sum by (apply Z.mod_pos_bound; lia).
  by rewrite i64_mod.
Qed.

Lemma Donation_Deserialize_Serialize (d : Donation) :
  exists w,
    Donation_Serialize d [] = Ok w
    /\ Donation_Deserialize w
       = Ok (NewDonation (u32 (Height d)) (i64 (Amount d))).
Proof.
  unfold Donation_Serialize, WriteUint32. cbn [rbind app].
  destruct (Fixed64_roundtrip (PutUint32 (Height d)) (Amount d) [])
    as (bs & Hser & Hde).
  rewrite Hser. cbn [rbind]. eexists. split; [reflexivity |].
  unfold Donation_Deserialize. rewrite ReadUint32_PutUint32. cbn [rbind snd fst].
  rewrite app_nil_r in Hde. rewrite Hde. reflexivity.
Qed.

(** X1. A donation record read back from its own serialization is the
    record with its height as a [uint32] and its amount as an [int64]: the
    record itself when the fields have these ranges. *)
Theorem Donation_roundtrip (d : Donation) :
  exists w,
    Donation_Serialize d [] = Ok w
    /\ Donation_Deserialize w
       = Ok (NewDonation (u32 (Height d)) (i64 (Amount d)))
    /\ (0 <= Height d < 2 ^ 32 -> in_int64 (Amount d) ->
        Donation_Deserialize w = Ok d).
Proof.
  destruct (Donation_Deserialize_Serialize d) as (w & Hser & Hread).
  exists w. split; [exact Hser |]. split; [exact Hread |].
  intros Hh Ha. rewrite Hread.
  unfold u32. rewrite Z.mod_small by exact Hh.
  rewrite i64_id by exact Ha. by destruct d.
Qed.

(** *** Wiping the store *)

Lemma foldl_BatchDelete (ks : list Key) :
  forall s : IStore,
    foldl (fun s k => (BatchDelete k s).1) s ks
    = mkStore (durable s) (batch s ++ ((fun k => (k, None)) <$> ks)) (healthy s).
Proof.
  induction ks as [| k ks IH]; intros s; cbn.
  - rewrite app_nil_r. by destruct s.
  - rewrite IH. cbn. by rewrite <- app_assoc.
Qed.

Lemma write_lookup_deletes (k : Key) (ks : list Key) :
  forall d,
    write_lookup k ((fun k => (k, None)) <$> ks) d
    = if decide (k ∈ ks) then None else d.
Proof.
  induction ks as [| k' ks IH]; intros d; cbn.
  - destruct (decide (k ∈ [])) as [Hin | _]; [by apply elem_of_nil in Hin | done].
  - rewrite IH.
    destruct (decide (k ∈ ks)) as [Hin | Hnin].
    + destruct (decide (k ∈ k' :: ks)) as [_ | Hn]; [done |].
      destruct Hn. by apply list_elem_of_further.
    + destruct (decide (k' = k)) as [-> | Hne].
      * destruct (decide (k ∈ k :: ks)) as [_ | Hn]; [done |].
        destruct Hn. apply list_elem_of_here.
      * destruct (decide (k ∈ k' :: ks)) as [Hin | _]; [| done].
        apply elem_of_cons in Hin as [-> | Hin]; [by destruct Hne | by destruct Hnin].
Qed.

Lemma delete_every_key (m : gmap Key bytes) :
  foldl apply_write m ((fun k => (k, None)) <$> (map_to_list m).*1) = ∅.
Proof.
  apply map_eq. intros k.
  rewrite foldl_apply_write_lookup, write_lookup_deletes, lookup_empty.
  destruct (decide _) as [_ | Hnin]; [reflexivity |].
  destruct (m !! k) as [v |] eqn:Hk; [| reflexivity].
  destruct Hnin. apply list_elem_of_fmap. exists (k, v).
  split; [reflexivity | by apply elem_of_map_to_list].
Qed.

Lemma ResetDB_healthy (cs : ChainStore) :
  healthy (st cs) = true ->
  ResetDB cs = (set_st (mkStore ∅ [] true) cs, Ok tt).
Proof.
  intros Hh. unfold ResetDB, on_st, BatchCommit, iterate_keys.
  rewrite foldl_BatchDelete. cbn. rewrite Hh. cbn.
  by rewrite delete_every_key.
Qed.

Lemma ResetDB_unhealthy (cs : ChainStore) :
  healthy (st cs) = false ->
  exists cs', ResetDB cs = (cs', Err ErrIO) /\ nothing_committed cs cs'.
Proof.
  intros Hh. unfold ResetDB, on_st, BatchCommit, iterate_keys.
  rewrite foldl_BatchDelete. cbn. rewrite Hh. cbn.
  eexists. split; [reflexivity |]. by repeat split.
Qed.

(** X2. [ResetDB] on an engine that can write leaves the durable store
    empty and returns nil; on one that cannot, it returns the error of the
    commit and the durable store is what it was. In both cases the in-memory
    fields are not touched. *)
Theorem ResetDB_spec (cs : ChainStore) :
  (healthy (st cs) = true ->
   ResetDB cs = (set_st (mkStore ∅ [] true) cs, Ok tt))
  /\ (healthy (st cs) = false ->
      exists cs',
        ResetDB cs = (cs', Err ErrIO) /\ nothing_committed cs cs').
Proof.
  unfold ResetDB, on_st, BatchCommit, iterate_keys.
  rewrite foldl_BatchDelete. cbn.
  split; intros Hh; rewrite Hh; cbn.
  - by rewrite delete_every_key.
  - eexists. split; [reflexivity |]. by repeat split.
Qed.

(** *** Pruning cursors *)

(** X12. The start heights of a pruning pass: 0 for a cursor that is not
    stored, and the stored height plus one, as a [uint32], for one that is;
    a stored cursor of 4294967295 therefore starts again at 0. *)
Theorem getPruningStartHeight_spec (cs : ChainStore) :
  (durable (st cs) !! TrieRefCountHeightKey = None ->
   durable (st cs) !! TriePrunedHeightKey = None ->
   getPruningStartHeight cs = Ok (0, 0))
  /\ (forall counted pruned rest1 rest2,
        durable (st cs) !! TrieRefCountHeightKey
          = Some (PutUint32 counted ++ rest1) ->
        durable (st cs) !! TriePrunedHeightKey
          = Some (PutUint32 pruned ++ rest2) ->
        getPruningStartHeight cs
        = Ok (u32 (u32 counted + 1), u32 (u32 pruned + 1)))
  /\ u32 (u32 MaxUint32 + 1) = 0.
Proof.
  unfold getPruningStartHeight, Get. split; [| split].
  - by intros -> ->.
  - intros counted pruned rest1 rest2 -> ->.
    by rewrite !Uint32_PutUint32.
  - reflexivity.
Qed.

(** X13. The compacted height: what [persistCompactHeight] wrote is what
    [getCompactHeight] reads, as a [uint32], and nothing else on disk
    changes; without a stored value the height is 0; and when the engine
    cannot write, the call fails and the stored height stays. *)
Theorem persistCompactHeight_getCompactHeight (cs : ChainStore) (height : Z) :
  (durable (st cs) !! TrieCompactHeightKey = None -> getCompactHeight cs = Ok 0)
  /\ (healthy (st cs) = true ->
      exists cs',
        persistCompactHeight height cs = (cs', Ok tt)
        /\ getCompactHeight cs' = Ok (u32 height)
        /\ forall k, k <> TrieCompactHeightKey ->
             durable (st cs') !! k = durable (st cs) !! k)
  /\ (healthy (st cs) = false ->
      persistCompactHeight height cs = (cs, Err ErrIO)).
Proof.
  split; [| split].
  - unfold getCompactHeight, Get. by intros ->.
  - intros Hh. unfold persistCompactHeight, on_st, Put. rewrite Hh. cbn.
    eexists. split; [reflexivity |]. split.
    + unfold getCompactHeight, Get. cbn. rewrite lookup_insert_eq.
      rewrite <- (app_nil_r (PutUint32 height)). apply Uint32_PutUint32.
    + intros k Hk. cbn. by rewrite lookup_insert_ne.
  - intros Hh. unfold persistCompactHeight, on_st, Put. rewrite Hh. cbn.
    by destruct cs.
Qed.

(** *** What a block's batch leaves on disk *)

(** X3. [persist] is all or nothing: whenever it does not return nil, be it
    for a transaction kind, the state transition, the declared root, the
    donation record or the commit itself, the receiver differs from what it
    was in the open batch only: nothing became durable and the in-memory
    pointer, state view and header cache are what they were. *)
Theorem persist_all_or_nothing (b : Block) (cs cs' : ChainStore)
    (r : result unit) :
  persist cfg b cs = (cs', r) ->
  r <> Ok tt ->
  (exists ws, cs' = staged ws cs) /\ nothing_committed cs cs'.
Proof.
  intros Hp Hr.
  assert (Hst : exists ws, cs' = staged ws cs).
  { destruct (decide (Forall recognized (Transactions b))) as [Hall | Hnall].
    - rewrite (persist_recognized cfg b cs Hall) in Hp. cbn zeta in Hp.
      repeat match type of Hp with
             | context [match ?x with _ => _ end] => destruct x
             end;
        injection Hp as <- <-;
        first [ by destruct Hr | by eexists ].
    - apply not_all_recognized in Hnall.
      destruct (persist_unsupported cfg b cs Hnall) as (ws & Hp1).
      rewrite Hp1 in Hp. injection Hp as <- <-. by exists ws. }
  split; [exact Hst |].
  destruct Hst as [ws ->]. apply nothing_committed_staged.
Qed.

Lemma Uint256ParseFromBytes_Ok (f u : bytes) :
  Uint256ParseFromBytes f = Ok u -> u = f /\ length f = UINT256SIZE.
Proof.
  unfold Uint256ParseFromBytes.
  destruct (decide _) as [Hl | _]; [| discriminate].
  intros [= <-]. by split.
Qed.

Lemma Uint256ParseFromBytes_length (f : bytes) :
  length f = UINT256SIZE -> Uint256ParseFromBytes f = Ok f.
Proof.
  intros Hl. unfold Uint256ParseFromBytes.
  destruct (decide _) as [_ | Hn]; [reflexivity | by destruct Hn].
Qed.

Lemma donation_key_not (k : Key) (height : Z) (dw : list (Key * option bytes)) :
  Forall (fun w => w.1 = DonationKey height) dw ->
  k <> DonationKey height ->
  Forall (fun w => w.1 <> k) dw.
Proof.
  intros Hdw Hk. eapply Forall_impl; [exact Hdw |].
  cbn. intros w -> Heq. by destruct Hk.
Qed.

Lemma tx_writes_not (k : Key) (height : Z) (txs : list Transaction) :
  k ∉ ((fun txn => TransactionKey (Txn_Hash txn)) <$> txs) ->
  Forall (fun w => w.1 <> k) (tx_write height <$> txs).
Proof.
  intros Hk. apply Forall_forall. intros w Hw.
  apply list_elem_of_fmap in Hw as (t & -> & Hin). cbn.
  intros <-. apply Hk. apply list_elem_of_fmap. by exists t.
Qed.

Lemma persist_writes_state_root (b : Block) (root : Uint256)
    (dw : list (Key * option bytes)) (height : Z) (d : option bytes) :
  Forall (fun w => w.1 = DonationKey height) dw ->
  write_lookup CurrentStateTrie (persist_writes b root dw) d = Some root.
Proof.
  intros Hdw. unfold persist_writes.
  rewrite !write_lookup_app. cbn [write_lookup].
  rewrite (write_lookup_other _ dw) by (by eapply donation_key_not).
  cbn. repeat case_decide; congruence.
Qed.

Lemma persist_writes_blockhash (b : Block) (root : Uint256)
    (dw : list (Key * option bytes)) (height : Z) (d : option bytes) :
  Forall (fun w => w.1 = DonationKey height) dw ->
  write_lookup (BlockhashKey (Block_Height b)) (persist_writes b root dw) d
  = Some (Block_Hash b).
Proof.
  intros Hdw. unfold persist_writes, block_writes.
  rewrite !write_lookup_app. cbn [write_lookup].
  rewrite (write_lookup_other _ dw) by (by eapply donation_key_not).
  cbn. rewrite write_lookup_other.
  - repeat case_decide; congruence.
  - apply Forall_forall. intros w Hw.
    apply list_elem_of_fmap in Hw as (t & -> & _). cbn. intros [=].
Qed.

(** A key outside the batch reads as before. *)
Lemma persist_writes_other (b : Block) (root : Uint256)
    (dw : list (Key * option bytes)) (d : option bytes) (k : Key) :
  Forall (fun w => w.1 = DonationKey (Block_Height b)) dw ->
  k ∉ persist_keys b ->
  write_lookup k (persist_writes b root dw) d = d.
Proof.
  intros Hdw Hk. apply write_lookup_other.
  unfold persist_writes, block_writes, persist_keys in *.
  rewrite !not_elem_of_app, !not_elem_of_cons in Hk.
  destruct Hk as ((? & ? & ? & ? & ? & _) & Htx).
  rewrite !Forall_app. repeat split.
  - repeat constructor; cbn; congruence.
  - by apply tx_writes_not.
  - repeat constructor; cbn; congruence.
  - by eapply donation_key_not.
  - repeat constructor; cbn; congruence.
Qed.

(** Every write of the batch puts a value. *)
Lemma write_lookup_puts (k : Key) (ws : list (Key * option bytes)) :
  Forall (fun w => is_Some w.2) ws ->
  forall d, is_Some d -> is_Some (write_lookup k ws d).
Proof.
  induction 1 as [| w ws Hw _ IH]; intros d Hd; cbn; [exact Hd |].
  apply IH. by destruct (decide _).
Qed.

Lemma donation_writes_puts (cs : ChainStore) (height : Z)
    (dw : list (Key * option bytes)) :
  donation_writes cfg cs height = Ok dw ->
  Forall (fun w => is_Some w.2) dw.
Proof.
  unfold donation_writes.
  destruct (u32_rem _ _) as [m | |]; cbn; [| discriminate ..].
  destruct (m =? 0); [| intros [= <-]; constructor].
  destruct (CalcNextDonation _ _ _) as [d | |]; cbn; [| discriminate ..].
  intros [= <-]. repeat constructor. cbn. by eexists.
Qed.

Lemma persist_writes_puts (b : Block) (root : Uint256)
    (dw : list (Key * option bytes)) :
  Forall (fun w => is_Some w.2) dw ->
  Forall (fun w => is_Some w.2) (persist_writes b root dw).
Proof.
  intros Hdw. unfold persist_writes, block_writes, pointer_write.
  rewrite !Forall_app. repeat split.
  - repeat constructor; cbn; by eexists.
  - apply Forall_forall. intros w Hw.
    apply list_elem_of_fmap in Hw as (t & -> & _). cbn. by eexists.
  - repeat constructor; cbn; by eexists.
  - exact Hdw.
  - repeat constructor; cbn; by eexists.
Qed.

Lemma state_root_committed (b : Block) (cs : ChainStore) (states : StateDB)
    (root : Uint256) (dw : list (Key * option bytes)) (height : Z) :
  Forall (fun w => w.1 = DonationKey height) dw ->
  length root = UINT256SIZE ->
  GetCurrentBlockStateRoot (committed (persist_writes b root dw) states cs)
  = Ok root.
Proof.
  intros Hdw Hlen. unfold GetCurrentBlockStateRoot. rewrite Get_committed.
  rewrite (persist_writes_state_root b _ dw _ _ Hdw). cbn [rbind].
  by apply Uint256ParseFromBytes_length.
Qed.

(** X4. After a successful [persist] the current state root on disk is the
    root the header of the block declares. *)
Theorem GetCurrentBlockStateRoot_after_persist (b : Block)
    (cs cs' : ChainStore) :
  persist cfg b cs = (cs', Ok tt) ->
  GetCurrentBlockStateRoot cs'
  = Ok (pb.StateRoot (block.UnsignedHeader (Header b))).
Proof.
  intros Hp.
  apply persist_success in Hp
    as (states & root & dw & _ & _ & Hroot & Hdw & _ & ->).
  apply donation_writes_keys in Hdw.
  apply Uint256ParseFromBytes_Ok in Hroot as [-> Hlen].
  by eapply state_root_committed.
Qed.

Lemma Uint256_Deserialize_exact (u rest : bytes) :
  length u = UINT256SIZE -> Uint256_Deserialize (u ++ rest) = (u, rest).
Proof.
  intros Hl. unfold Uint256_Deserialize.
  rewrite take_app_length', drop_app_length' by (first [exact Hl | symmetry; exact Hl]).
  rewrite length_app, Hl.
  replace (UINT256SIZE - (UINT256SIZE + length rest))%nat with 0%nat by lia.
  cbn. by rewrite app_nil_r.
Qed.

Lemma pointer_committed (b : Block) (cs : ChainStore) (states : StateDB)
    (root : Uint256) (dw : list (Key * option bytes)) :
  length (Block_Hash b) = UINT256SIZE ->
  getCurrentBlockHashFromDB (committed (persist_writes b root dw) states cs)
  = (Block_Hash b, u32 (Block_Height b), Ok tt).
Proof.
  intros Hlen. unfold getCurrentBlockHashFromDB. rewrite Get_committed.
  rewrite persist_writes_pointer.
  rewrite Uint256_Deserialize_exact by exact Hlen. cbn [fst snd].
  rewrite <- (app_nil_r (PutUint32 _)), ReadUint32_PutUint32. reflexivity.
Qed.

(** X5. After a successful [persist] of a block whose hash is a 32-byte
    digest, [getCurrentBlockHashFromDB] returns that hash, the height of the
    block as a [uint32], and nil. *)
Theorem getCurrentBlockHashFromDB_after_persist (b : Block)
    (cs cs' : ChainStore) :
  persist cfg b cs = (cs', Ok tt) ->
  length (Block_Hash b) = UINT256SIZE ->
  getCurrentBlockHashFromDB cs' = (Block_Hash b, u32 (Block_Height b), Ok tt).
Proof.
  intros Hp Hlen.
  apply persist_success in Hp
    as (states & root & dw & _ & _ & _ & _ & _ & ->).
  by apply pointer_committed.
Qed.

Lemma write_lookup_tx_some (height : Z) (txs : list Transaction) (h : Uint256) :
  forall d,
    h ∈ (Txn_Hash <$> txs) ->
    is_Some (write_lookup (TransactionKey h) (tx_write height <$> txs) d).
Proof.
  induction txs as [| t txs IH]; intros d Hin; cbn in *.
  - by apply elem_of_nil in Hin.
  - destruct (decide (h ∈ (Txn_Hash <$> txs))) as [Hh | Hh].
    + by apply IH.
    + apply elem_of_cons in Hin as [-> | Hin]; [| by destruct Hh].
      rewrite write_lookup_other.
      * destruct (decide _) as [_ | Hn]; [by eexists | by destruct Hn].
      * apply Forall_forall. intros w Hw.
        apply list_elem_of_fmap in Hw as (t' & -> & Hin').
        cbn. intros [= Heq]. apply Hh.
        apply list_elem_of_fmap. exists t'. by split.
Qed.

(** X7. After a successful [persist] every transaction of the block is a
    duplicate for [IsTxHashDuplicate]. *)
Theorem IsTxHashDuplicate_after_persist (b : Block) (cs cs' : ChainStore)
    (txn : Transaction) :
  persist cfg b cs = (cs', Ok tt) ->
  txn ∈ Transactions b ->
  IsTxHashDuplicate cs' (Txn_Hash txn) = true.
Proof.
  intros Hp Hin.
  apply persist_success in Hp
    as (states & root & dw & _ & _ & _ & Hdw & _ & ->).
  pose proof (donation_writes_puts _ _ _ Hdw) as Hputs.
  unfold IsTxHashDuplicate. rewrite Get_committed.
  assert (Hsome : is_Some (write_lookup (TransactionKey (Txn_Hash txn))
                             (persist_writes b root dw)
                             (durable (st cs) !! TransactionKey (Txn_Hash txn)))).
  { unfold persist_writes, block_writes.
    rewrite (write_lookup_app _ (_ ++ _)).
    apply write_lookup_puts.
    - rewrite !Forall_app. repeat split; [| exact Hputs |];
        repeat constructor; cbn; by eexists.
    - rewrite write_lookup_app. apply write_lookup_tx_some.
      apply list_elem_of_fmap. by exists txn. }
  destruct Hsome as [v Hv]. by rewrite Hv.
Qed.

(** X8. [persist] only adds: a key outside the batch of the block reads as
    before, and no key that held a value loses it. Headers, transactions,
    height index entries and donation records of other blocks, the version
    marker and the pruning cursors are out of its reach. *)
Theorem persist_only_adds (b : Block) (cs cs' : ChainStore) :
  persist cfg b cs = (cs', Ok tt) ->
  (forall k, k ∉ persist_keys b ->
             durable (st cs') !! k = durable (st cs) !! k)
  /\ (forall k, is_Some (durable (st cs) !! k) ->
                is_Some (durable (st cs') !! k)).
Proof.
  intros Hp.
  apply persist_success in Hp
    as (states & root & dw & _ & _ & _ & Hdw & _ & ->).
  change (durable (st (committed (persist_writes b root dw) states cs)))
    with (foldl apply_write (durable (st cs)) (persist_writes b root dw)).
  split; intros k Hk; rewrite foldl_apply_write_lookup.
  - apply persist_writes_other; [| exact Hk].
    by eapply donation_writes_keys.
  - apply write_lookup_puts; [| exact Hk].
    apply persist_writes_puts. by eapply donation_writes_puts.
Qed.

(** *** Reading a block back by height *)

Lemma map_result_ext {A B} (f g : A -> result B) (l : list A) :
  (forall x, x ∈ l -> f x = g x) -> map_result f l = map_result g l.
Proof.
  induction l as [| x l IH]; intros Hfg; cbn; [reflexivity |].
  rewrite Hfg by apply list_elem_of_here.
  rewrite IH; [reflexivity |].
  intros y Hy. apply Hfg. by apply list_elem_of_further.
Qed.

(** The round trip of a persisted block, for a batch of any donation
    writes. *)
Lemma GetBlock_committed (b trimmed : Block) (cs : ChainStore)
    (states : StateDB) (root : Uint256) (dw : list (Key * option bytes))
    (height : Z) :
  Forall (fun w => w.1 = DonationKey height) dw ->
  Block_FromTrimmedData (Block_encode_trimmed b) = Ok trimmed ->
  Header trimmed = Header b ->
  Txn_Hash <$> Transactions trimmed = Txn_Hash <$> Transactions b ->
  (forall txn, txn ∈ Transactions b -> Txn_Unmarshal (Txn_encode txn) = Ok txn) ->
  (forall t1 t2, t1 ∈ Transactions b -> t2 ∈ Transactions b ->
                 Txn_Hash t1 = Txn_Hash t2 -> t1 = t2) ->
  GetBlock (committed (persist_writes b root dw) states cs) (Block_Hash b)
  = Ok b.
Proof.
  intros Hdw Hdec Hhdr Hhashes Htx Hinj.
  assert (Hget : forall txn, txn ∈ Transactions b ->
            getTx (committed (persist_writes b root dw) states cs) (Txn_Hash txn)
            = Ok (txn, u32 (Block_Height b))).
  { intros txn Hin. unfold getTx. rewrite Get_committed.
    rewrite (persist_writes_transaction b root dw _ _ txn Hdw Hinj Hin).
    cbn [rbind].
    rewrite Uint32_PutUint32, slice_from4_PutUint32. cbn [rbind].
    by rewrite (Htx txn Hin). }
  unfold GetBlock. rewrite Get_committed.
  rewrite (persist_writes_header b root dw _ _ Hdw). cbn [rbind].
  rewrite Hdec. cbn [rbind].
  rewrite (map_result_fmap Txn_Hash
             (fun h => r <- getTx _ h ;; Ok r.1)%result).
  rewrite Hhashes.
  rewrite map_result_section.
  - cbn [rbind]. rewrite Hhdr. by destruct b.
  - intros txn Hin. cbn beta. by rewrite (Hget txn Hin).
Qed.

(** X6. After a successful [persist] of a block whose hash is a 32-byte
    digest, the height index leads back to the block: [GetBlockHash] at the
    height of the block returns its hash, and [GetBlockByHeight] rebuilds the
    block under the contracts of the codec (the trimmed form decodes to the
    header and the transaction hashes, a transaction decodes from its own
    serialization, no two transactions of the block share a hash). *)
Theorem GetBlockByHeight_after_persist (b trimmed : Block)
    (cs cs' : ChainStore) :
  persist cfg b cs = (cs', Ok tt) ->
  length (Block_Hash b) = UINT256SIZE ->
  GetBlockHash cs' (Block_Height b) = Ok (Block_Hash b)
  /\ (Block_FromTrimmedData (Block_encode_trimmed b) = Ok trimmed ->
      Header trimmed = Header b ->
      Txn_Hash <$> Transactions trimmed = Txn_Hash <$> Transactions b ->
      (forall txn, txn ∈ Transactions b ->
                   Txn_Unmarshal (Txn_encode txn) = Ok txn) ->
      (forall t1 t2, t1 ∈ Transactions b -> t2 ∈ Transactions b ->
                     Txn_Hash t1 = Txn_Hash t2 -> t1 = t2) ->
      GetBlockByHeight cs' (Block_Height b) = Ok b).
Proof.
  intros Hp Hlen.
  apply persist_success in Hp
    as (states & root & dw & _ & _ & _ & Hdw & _ & ->).
  apply donation_writes_keys in Hdw.
  assert (Hhash : GetBlockHash (committed (persist_writes b root dw) states cs)
                    (Block_Height b) = Ok (Block_Hash b)).
  { unfold GetBlockHash. rewrite Get_committed.
    rewrite (persist_writes_blockhash b root dw _ _ Hdw). cbn [rbind].
    by apply Uint256ParseFromBytes_length. }
  split; [exact Hhash |].
  intros Hdec Hhdr Hhashes Htx Hinj.
  unfold GetBlockByHeight. rewrite Hhash. cbn [rbind].
  by eapply GetBlock_committed.
Qed.

(** X9. A later block does not disturb an earlier one: when the new block
    has another hash and none of its transactions has the hash of a
    transaction of the stored block, [GetBlock] of the stored block answers
    after the [persist] what it answered before. *)
Theorem GetBlock_unchanged_by_persist (b stored : Block) (cs cs' : ChainStore)
    (hash : Uint256) (data : bytes) :
  persist cfg b cs = (cs', Ok tt) ->
  Get (st cs) (HeaderKey hash) = Ok data ->
  Block_FromTrimmedData data = Ok stored ->
  hash <> Block_Hash b ->
  (forall txn, txn ∈ Transactions stored ->
               Txn_Hash txn ∉ (Txn_Hash <$> Transactions b)) ->
  GetBlock cs' hash = GetBlock cs hash.
Proof.
  intros Hp Hdata Hdec Hne Htxs.
  assert (Hsame : forall k, k ∉ persist_keys b ->
                    Get (st cs') k = Get (st cs) k).
  { intros k Hk. unfold Get.
    apply persist_success in Hp
      as (states & root & dw & _ & _ & _ & Hdw & _ & ->).
    change (durable (st (committed (persist_writes b root dw) states cs)))
      with (foldl apply_write (durable (st cs)) (persist_writes b root dw)).
    rewrite foldl_apply_write_lookup.
    rewrite persist_writes_other; [reflexivity | | exact Hk].
    by eapply donation_writes_keys. }
  unfold GetBlock.
  rewrite (Hsame (HeaderKey hash)).
  2:{ unfold persist_keys. rewrite not_elem_of_app, !not_elem_of_cons.
      split; [repeat split; first [discriminate | congruence | apply not_elem_of_nil] |].
      intros Hin. apply list_elem_of_fmap in Hin as (t & [=] & _). }
  rewrite Hdata. cbn [rbind]. rewrite Hdec. cbn [rbind].
  rewrite (map_result_ext
             (fun t => r <- getTx cs' (Txn_Hash t) ;; Ok r.1)%result
             (fun t => r <- getTx cs (Txn_Hash t) ;; Ok r.1)%result);
    [reflexivity |].
  intros txn Hin. unfold getTx.
  rewrite (Hsame (TransactionKey (Txn_Hash txn))); [reflexivity |].
  unfold persist_keys. rewrite not_elem_of_app, !not_elem_of_cons.
  split; [repeat split; first [discriminate | apply not_elem_of_nil] |].
  intros Hk. apply list_elem_of_fmap in Hk as (t & [= Heq] & Ht).
  apply (Htxs txn Hin). apply list_elem_of_fmap. by exists t.
Qed.

(** *** Donation records on disk *)

Lemma CalcNextDonation_ranges (cs : ChainStore) (height : Z) (d : Donation) :
  CalcNextDonation cfg cs height = Ok d ->
  Height d = height /\ in_int64 (Amount d).
Proof.
  unfold CalcNextDonation.
  destruct (Z.eqb_spec height 0) as [-> | _].
  { intros [= <-]. cbn. unfold in_int64, MinInt64, MaxInt64. lia. }
  destruct (getDonation cfg cs) as [lastDonation | |]; cbn; [| discriminate ..].
  destruct (negb _); [discriminate |].
  destruct (ToScriptHash _) as [addr | |]; cbn; [| discriminate ..].
  destruct (treasury_balance _ _ _) as [amount | |]; cbn; [| discriminate ..].
  unfold i64_div.
  destruct (_ =? 0); cbn; [discriminate |].
  destruct (_ =? 0); cbn; [discriminate |].
  intros [= <-]. cbn. split; [reflexivity | apply i64_in_int64].
Qed.

Lemma donation_writes_boundary (cs : ChainStore) (height : Z)
    (dw : list (Key * option bytes)) :
  donation_writes cfg cs height = Ok dw ->
  u32 (RewardAdjustInterval cfg) <> 0 ->
  height mod u32 (RewardAdjustInterval cfg) = 0 ->
  exists d w,
    CalcNextDonation cfg cs height = Ok d
    /\ Donation_Serialize d [] = Ok w
    /\ dw = [(DonationKey height, Some w)].
Proof.
  unfold donation_writes, u32_rem. intros Hdw Hi Hm.
  rewrite (proj2 (Z.eqb_neq _ _) Hi) in Hdw.
  cbn [rbind] in Hdw. rewrite Hm in Hdw. change (0 =? 0) with true in Hdw.
  cbn iota in Hdw.
  destruct (CalcNextDonation cfg cs height) as [d | |]; cbn [rbind] in Hdw;
    [| discriminate ..].
  destruct (Donation_Serialize d []) as [w | |] eqn:Hw; cbn [rbind] in Hdw;
    [| discriminate ..].
  injection Hdw as <-. by exists d, w.
Qed.

(** X10. At an adjustment boundary an error of [CalcNextDonation] aborts
    [persist], nothing committed: a block of recognized transactions whose
    computed root is the declared one is still refused when the donation
    record cannot be computed, for instance when the last record is not one
    interval behind. *)
Theorem persist_donation_error (b : Block) (cs : ChainStore)
    (states : StateDB) (root : Uint256) (e : error) :
  Forall recognized (Transactions b) ->
  generateStateRoot (staged (block_writes b) cs) b
    (negb (Block_Height b =? 0)) true = Ok (states, root) ->
  Uint256ParseFromBytes
    (pb.StateRoot (block.UnsignedHeader (Header b))) = Ok root ->
  u32 (RewardAdjustInterval cfg) <> 0 ->
  Block_Height b mod u32 (RewardAdjustInterval cfg) = 0 ->
  CalcNextDonation cfg cs (Block_Height b) = Err e ->
  exists cs',
    persist cfg b cs = (cs', Err e) /\ nothing_committed cs cs'.
Proof.
  intros Hall Hg Hu Hi Hm Hcalc.
  rewrite (persist_recognized cfg b cs Hall). cbn zeta.
  rewrite Hg, Hu. cbn [fst snd].
  destruct (decide (root = root)) as [_ | Hn]; [| by destruct Hn].
  unfold donation_writes, u32_rem.
  rewrite (proj2 (Z.eqb_neq _ _) Hi).
  cbn [rbind]. rewrite Hm. change (0 =? 0) with true. cbn iota.
  rewrite Hcalc. cbn [rbind].
  eexists. split; [reflexivity |]. apply nothing_committed_staged.
Qed.

(** [SaveBlock] when live pruning is off. *)
Lemma SaveBlock_no_pruning (b : Block) (fastAdd : bool) (cs cs1 : ChainStore) :
  LivePruning cfg = false ->
  persist cfg b cs = (cs1, Ok tt) ->
  SaveBlock cfg b fastAdd cs
  = (set_headerCache
       (AddHeaderToCache
          (if Block_Height b >? BlockHeaderCacheSize cfg
           then RemoveCachedHeader (headerCache cs1)
                  (Block_Height b - BlockHeaderCacheSize cfg)
           else headerCache cs1)
          (Header b))
       (set_pointer (Block_Hash b) (Block_Height b) cs1),
     Ok tt).
Proof.
  intros Hl Hp. unfold SaveBlock. unfold mbind at 1. rewrite Hp.
  unfold mbind, modify. cbn. rewrite Hl.
  by destruct (_ >? _).
Qed.

Lemma SaveBlock_Ok_persist (b : Block) (fastAdd : bool) (cs cs' : ChainStore) :
  SaveBlock cfg b fastAdd cs = (cs', Ok tt) ->
  exists cs1, persist cfg b cs = (cs1, Ok tt).
Proof.
  intros Hs. unfold SaveBlock in Hs. unfold mbind at 1 in Hs.
  destruct (persist cfg b cs) as [cs1 [[] | e |]]; [by exists cs1 | discriminate ..].
Qed.

Lemma persist_writes_donation (b : Block) (root : Uint256) (w : bytes)
    (d : option bytes) :
  write_lookup (DonationKey (Block_Height b))
    (persist_writes b root [(DonationKey (Block_Height b), Some w)]) d
  = Some w.
Proof.
  unfold persist_writes. rewrite !write_lookup_app. cbn.
  repeat case_decide; congruence.
Qed.

(** X11. The donation of an interval: after [SaveBlock] (live pruning off)
    of a block at an adjustment boundary, the record [CalcNextDonation]
    computed for that height is what [getDonation] reads, and [GetDonation]
    returns its amount, for every current height from the boundary up to the
    next one. *)
Theorem GetDonation_after_SaveBlock (b : Block) (fastAdd : bool)
    (cs cs' : ChainStore) :
  SaveBlock cfg b fastAdd cs = (cs', Ok tt) ->
  LivePruning cfg = false ->
  0 <= Block_Height b < 2 ^ 32 ->
  0 < u32 (RewardAdjustInterval cfg) ->
  Block_Height b mod u32 (RewardAdjustInterval cfg) = 0 ->
  exists d,
    CalcNextDonation cfg cs (Block_Height b) = Ok d
    /\ forall hash height,
         Block_Height b <= height
           < Block_Height b + u32 (RewardAdjustInterval cfg) ->
         height < 2 ^ 32 ->
         getDonation cfg (set_pointer hash height cs') = Ok d
         /\ GetDonation cfg (set_pointer hash height cs') = Ok (Amount d).
Proof.
  intros Hs Hl Hh Hi Hm.
  destruct (SaveBlock_Ok_persist _ _ _ _ Hs) as [cs1 Hp].
  rewrite (SaveBlock_no_pruning b fastAdd cs cs1 Hl Hp) in Hs.
  injection Hs as <-.
  apply persist_success in Hp
    as (states & root & dw & _ & _ & _ & Hdw & _ & ->).
  destruct (donation_writes_boundary cs _ dw Hdw) as (d & w & Hcalc & Hw & ->);
    [lia | exact Hm |].
  exists d. split; [exact Hcalc |].
  intros hash height Hrange Hlt.
  assert (Hget : getDonation cfg
                   (set_pointer hash height
                      (set_headerCache
                         (AddHeaderToCache
                            (if Block_Height b >? BlockHeaderCacheSize cfg
                             then RemoveCachedHeader
                                    (headerCache
                                       (committed
                                          (persist_writes b root
                                             [(DonationKey (Block_Height b),
                                               Some w)]) states cs))
                                    (Block_Height b - BlockHeaderCacheSize cfg)
                             else headerCache
                                    (committed
                                       (persist_writes b root
                                          [(DonationKey (Block_Height b),
                                            Some w)]) states cs))
                            (Header b))
                         (set_pointer (Block_Hash b) (Block_Height b)
                            (committed
                               (persist_writes b root
                                  [(DonationKey (Block_Height b), Some w)])
                               states cs))))
                 = Ok d).
  { unfold getDonation, u32_div. cbn [currentBlockHeight set_pointer].
    destruct (Z.eqb_spec (u32 (RewardAdjustInterval cfg)) 0) as [H0 | _]; [lia |].
    cbn [rbind].
    set (I := u32 (RewardAdjustInterval cfg)) in *.
    assert (Hq : u32 (height / I * I) = Block_Height b).
    { apply Z.mod_divide in Hm; [| lia]. destruct Hm as [k Hk].
      assert (height / I = k) as ->.
      { symmetry. apply (Z.div_unique height I k (height - k * I)); lia. }
      unfold u32. rewrite Z.mod_small; lia. }
    rewrite Hq.
    change (Get (st _) (DonationKey (Block_Height b)))
      with (Get (st (committed
                       (persist_writes b root
                          [(DonationKey (Block_Height b), Some w)]) states cs))
              (DonationKey (Block_Height b))).
    rewrite Get_committed, persist_writes_donation. cbn [rbind].
    destruct (Donation_Deserialize_Serialize d) as (w' & Hw' & Hread).
    rewrite Hw in Hw'. injection Hw' as <-. rewrite Hread.
    destruct (CalcNextDonation_ranges cs _ d Hcalc) as [Hhd Had].
    unfold u32 at 1. rewrite Z.mod_small by lia.
    rewrite i64_id by exact Had. by destruct d. }
  split; [exact Hget |].
  unfold GetDonation. by rewrite Hget.
Qed.

(** *** Headers after SaveBlock *)

Lemma GetHeader_committed (b : Block) (cs : ChainStore) (states : StateDB)
    (root : Uint256) (dw : list (Key * option bytes)) (height : Z)
    (dt : bytes) :
  Forall (fun w => w.1 = DonationKey height) dw ->
  ReadVarBytes (Block_encode_trimmed b) = Ok dt ->
  Header_Unmarshal dt = Ok (Header b) ->
  GetHeader (committed (persist_writes b root dw) states cs) (Block_Hash b)
  = Ok (Header b).
Proof.
  intros Hdw Hvar Hun. unfold GetHeader. rewrite Get_committed.
  rewrite (persist_writes_header b root dw _ _ Hdw). cbn [rbind].
  rewrite Hvar. cbn [rbind]. exact Hun.
Qed.

(** X14. A block is in store once [SaveBlock] has returned, not before.
    Under the contract of the header codec (the header part of the trimmed
    form decodes to the header of the block): after [persist] alone the
    header is read back by [GetHeader], but [IsBlockInStore] is false as long
    as [currentBlockHeight] is below the height of the block; after
    [SaveBlock] (live pruning off) [IsBlockInStore] is true. *)
Theorem IsBlockInStore_after_SaveBlock (b : Block) (fastAdd : bool)
    (cs cs1 cs' : ChainStore) (dt : bytes) :
  persist cfg b cs = (cs1, Ok tt) ->
  SaveBlock cfg b fastAdd cs = (cs', Ok tt) ->
  LivePruning cfg = false ->
  ReadVarBytes (Block_encode_trimmed b) = Ok dt ->
  Header_Unmarshal dt = Ok (Header b) ->
  GetHeader cs1 (Block_Hash b) = Ok (Header b)
  /\ (currentBlockHeight cs < Block_Height b ->
      IsBlockInStore cs1 (Block_Hash b) = Ok false)
  /\ IsBlockInStore cs' (Block_Hash b) = Ok true.
Proof.
  intros Hp Hs Hl Hvar Hun.
  rewrite (SaveBlock_no_pruning b fastAdd cs cs1 Hl Hp) in Hs.
  injection Hs as <-.
  apply persist_success in Hp
    as (states & root & dw & _ & _ & _ & Hdw & _ & ->).
  apply donation_writes_keys in Hdw.
  pose proof (GetHeader_committed b cs states root dw _ dt Hdw Hvar Hun) as Hget.
  split; [exact Hget |]. split.
  - intros Hlt. unfold IsBlockInStore. rewrite Hget.
    change (currentBlockHeight (committed _ _ cs)) with (currentBlockHeight cs).
    fold (Block_Height b).
    destruct (Z.gtb_spec (Block_Height b) (currentBlockHeight cs));
      [reflexivity | lia].
  - unfold IsBlockInStore.
    match goal with
    | |- context [GetHeader ?s _] =>
        change (GetHeader s (Block_Hash b))
          with (GetHeader (committed (persist_writes b root dw) states cs)
                  (Block_Hash b))
    end.
    rewrite Hget. cbn [currentBlockHeight set_headerCache set_pointer].
    fold (Block_Height b).
    destruct (Z.gtb_spec (Block_Height b) (Block_Height b));
      [lia | reflexivity].
Qed.

Lemma PruneStatesLowMemory_headerCache (full : bool) (cs cs' : ChainStore)
    (r : result unit) :
  PruneStatesLowMemory full cs = (cs', r) ->
  headerCache cs' = headerCache cs /\ States cs' = States cs.
Proof.
  unfold PruneStatesLowMemory, mbind, reads, on_st.
  destruct (NewStateDB EmptyUint256 cs) as [state | e |]; cbn.
  all: intros [= <- _]; by split.
Qed.

(** X15. The header cache after [SaveBlock]: once [persist] has succeeded,
    whatever pruning does afterwards, the cache is the one before the call
    with the header at [height - BlockHeaderCacheSize] evicted, when the
    height of the block exceeds the size, and the header of the block
    inserted; and the state view is the one the transition returned, not
    one of the pruning pass. *)
Theorem SaveBlock_headerCache (b : Block) (fastAdd : bool)
    (cs cs1 cs' : ChainStore) (r : result unit) :
  persist cfg b cs = (cs1, Ok tt) ->
  SaveBlock cfg b fastAdd cs = (cs', r) ->
  headerCache cs'
  = AddHeaderToCache
      (if Block_Height b >? BlockHeaderCacheSize cfg
       then RemoveCachedHeader (headerCache cs)
              (Block_Height b - BlockHeaderCacheSize cfg)
       else headerCache cs)
      (Header b)
  /\ States cs' = States cs1.
Proof.
  intros Hp Hs. unfold SaveBlock in Hs. unfold mbind at 1 in Hs.
  rewrite Hp in Hs.
  apply persist_success in Hp
    as (states & root & dw & _ & _ & _ & _ & _ & ->).
  unfold mbind, modify in Hs; cbn in Hs.
  destruct (LivePruning cfg).
  - destruct (decide (StatePruningMode cfg = "lowmem"%string)).
    + apply PruneStatesLowMemory_headerCache in Hs as [-> ->].
      by destruct (_ >? _).
    + injection Hs as <- <-. by destruct (_ >? _).
  - injection Hs as <- <-. by destruct (_ >? _).
Qed.

(** *** Start-up *)


(** X16. Start-up on a version mismatch wipes the store first. On an engine
    that cannot write it fails with the wrapped error of [ResetDB], the disk
    as it was. On one that can: when the call returns nil, the height
    returned is 0, the pointer names the genesis block, the version key
    holds the configured version, and no key of the old store survives
    outside those of the genesis batch; when it does not, the disk is left
    empty. The pruning mode is not looked at on this path. *)
Theorem InitLedgerStore_version_mismatch (genesisBlock : Block)
    (cs cs' : ChainStore) (r : result Z) (v0 : byte) (v : bytes) :
  stored_version cs = v0 :: v ->
  v0 <> DBVersion cfg ->
  InitLedgerStoreWithGenesisBlock cfg genesisBlock cs = (cs', r) ->
  (healthy (st cs) = false ->
   r = Err (ErrResetDB ErrIO) /\ durable (st cs') = durable (st cs))
  /\ (healthy (st cs) = true ->
      (forall z, r = Ok z ->
         z = 0
         /\ currentBlockHeight cs' = 0
         /\ currentBlockHash cs' = Block_Hash genesisBlock
         /\ durable (st cs') !! VersionKey = Some [DBVersion cfg]
         /\ forall k, k <> VersionKey -> k ∉ persist_keys genesisBlock ->
              durable (st cs') !! k = None)
      /\ ((forall z, r <> Ok z) -> durable (st cs') = ∅)).
Proof.
  intros Hv Hne Hinit.
  unfold InitLedgerStoreWithGenesisBlock in Hinit.
  unfold mbind at 1 in Hinit. unfold reads at 1 in Hinit.
  assert (Hread : match Get (st cs) VersionKey with
                  | Ok v1 => Ok v1
                  | _ => Ok [x00]
                  end = Ok (v0 :: v)).
  { unfold stored_version in Hv. by destruct (Get (st cs) VersionKey); rewrite Hv. }
  rewrite Hread in Hinit.
  unfold mbind at 1 in Hinit. unfold lift at 1 in Hinit.
  destruct (decide (v0 ≠ DBVersion cfg)) as [_ | Hn]; [| by destruct Hn].
  unfold mbind at 1 in Hinit. unfold wrap_error in Hinit.
  split; intros Hh.
  - destruct (ResetDB_unhealthy cs Hh) as (cs1 & Hreset & Hnc).
    rewrite Hreset in Hinit. injection Hinit as <- <-.
    split; [reflexivity | apply Hnc].
  - rewrite (ResetDB_healthy cs Hh) in Hinit.
    unfold mbind at 1 in Hinit. unfold assign_States at 1 in Hinit.
    destruct (NewStateDB EmptyUint256 _) as [s0 | e |].
    2,3: injection Hinit as <- <-; split; [intros z [=] | by intros _].
    unfold mbind at 1 in Hinit.
    destruct (persist cfg genesisBlock _) as [cs1 r1] eqn:Hp.
    destruct r1 as [[] | e |].
    + pose proof Hp as Hc.
      apply persist_success in Hc
        as (states & root & dw & _ & _ & _ & Hdw & _ & ->).
      remember (persist_writes genesisBlock root dw) as ws eqn:Hws.
      unfold mbind, on_st, Put, modify in Hinit. cbn in Hinit.
      injection Hinit as <- <-.
      split; [| intros Hno; by destruct (Hno 0)].
      intros z [= <-]. cbn.
      split; [reflexivity |]. split; [reflexivity |]. split; [reflexivity |].
      split; [apply lookup_insert_eq |].
      intros k Hk Hkeys. rewrite lookup_insert_ne by congruence.
      rewrite foldl_apply_write_lookup. subst ws.
      rewrite persist_writes_other; [apply lookup_empty | | exact Hkeys].
      by eapply donation_writes_keys.
    + destruct (persist_failure_atomic cfg _ _ _ _ Hp) as (Hd & _); [done |].
      injection Hinit as <- <-.
      split; [intros z [=] | intros _; exact Hd].
    + destruct (persist_failure_atomic cfg _ _ _ _ Hp) as (Hd & _); [done |].
      injection Hinit as <- <-.
      split; [intros z [=] | intros _; exact Hd].
Qed.

(** X17. Restart recovers the chain pointer. On the disk a successful
    [persist] of a block left, with the stored version matching, the genesis
    block in store, the header of the block decodable, a state view that
    opens at the declared root and pruning mode "none", start-up on a fresh
    receiver returns the height of the block, the pointer names the block,
    the state view is the one opened at the declared root, and the disk is
    not written. *)
Theorem InitLedgerStore_recovers_pointer (genesisBlock b : Block)
    (cs cs1 cs0 : ChainStore) (v : bytes) (currentHeader : block.Header)
    (s : StateDB) :
  persist cfg b cs = (cs1, Ok tt) ->
  st cs0 = st cs1 ->
  Get (st cs0) VersionKey = Ok (DBVersion cfg :: v) ->
  IsBlockInStore cs0 (Block_Hash genesisBlock) = Ok true ->
  length (Block_Hash b) = UINT256SIZE ->
  0 <= Block_Height b < 2 ^ 32 ->
  GetHeader cs1 (Block_Hash b) = Ok currentHeader ->
  (forall c, NewStateDB (pb.StateRoot (block.UnsignedHeader (Header b))) c
             = Ok s) ->
  StatePruningMode cfg = "none"%string ->
  exists cs',
    InitLedgerStoreWithGenesisBlock cfg genesisBlock cs0
    = (cs', Ok (Block_Height b))
    /\ currentBlockHash cs' = Block_Hash b
    /\ currentBlockHeight cs' = Block_Height b
    /\ States cs' = Some s
    /\ st cs' = st cs0.
Proof.
  intros Hp Hst Hv Hin Hlen Hh Hhdr Hnew Hmode.
  assert (Hptr : getCurrentBlockHashFromDB cs1
                 = (Block_Hash b, u32 (Block_Height b), Ok tt)).
  { pose proof Hp as Hc.
    apply persist_success in Hc
      as (states & root & dw & _ & _ & _ & _ & _ & ->).
    by apply pointer_committed. }
  assert (Hroot : GetCurrentBlockStateRoot cs1
                  = Ok (pb.StateRoot (block.UnsignedHeader (Header b)))).
  { pose proof Hp as Hc.
    apply persist_success in Hc
      as (states & root & dw & _ & _ & Hr & Hdw & _ & ->).
    apply donation_writes_keys in Hdw.
    apply Uint256ParseFromBytes_Ok in Hr as [-> Hl].
    by eapply state_root_committed. }
  assert (Hptr0 : getCurrentBlockHashFromDB cs0
                  = (Block_Hash b, Block_Height b, Ok tt)).
  { unfold getCurrentBlockHashFromDB in *. rewrite Hst, Hptr.
    unfold u32. by rewrite Z.mod_small. }
  unfold InitLedgerStoreWithGenesisBlock, mbind, reads, lift, modify, mfail.
  rewrite Hv. cbn.
  destruct (decide (DBVersion cfg ≠ DBVersion cfg)) as [Hne | _];
    [by destruct Hne |].
  rewrite Hin. cbn. rewrite Hptr0. cbn.
  match goal with
  | |- context [GetHeader ?c (Block_Hash b)] =>
      replace (GetHeader c (Block_Hash b)) with (Ok currentHeader)
  end.
  2:{ rewrite <- Hhdr. unfold GetHeader. cbn. by rewrite Hst. }
  cbn.
  match goal with
  | |- context [GetCurrentBlockStateRoot ?c] =>
      replace (GetCurrentBlockStateRoot c)
        with (Ok (pb.StateRoot (block.UnsignedHeader (Header b))))
  end.
  2:{ rewrite <- Hroot. unfold GetCurrentBlockStateRoot. cbn. by rewrite Hst. }
  unfold assign_States. rewrite Hnew. rewrite Hmode. cbn.
  eexists. split; [reflexivity |]. by repeat split.
Qed.

(** X18. Start-up with the stored version matching and no header under the
    hash of the genesis block fails with "genesisBlock is NOT in
    BlockStore" and touches nothing, neither on disk nor in memory. *)
Theorem InitLedgerStore_genesis_missing (genesisBlock : Block)
    (cs : ChainStore) (v : bytes) :
  Get (st cs) VersionKey = Ok (DBVersion cfg :: v) ->
  durable (st cs) !! HeaderKey (Block_Hash genesisBlock) = None ->
  InitLedgerStoreWithGenesisBlock cfg genesisBlock cs
  = (cs, Err ErrGenesisNotInStore).
Proof.
  intros Hv Hnone.
  unfold InitLedgerStoreWithGenesisBlock, mbind, reads, lift, modify, mfail.
  rewrite Hv. cbn.
  destruct (decide (DBVersion cfg ≠ DBVersion cfg)) as [Hne | _];
    [by destruct Hne |].
  unfold IsBlockInStore, GetHeader, Get. rewrite Hnone. reflexivity.
Qed.

(** *** Ranges of state roots *)

Lemma GetStateRoots_loop_steps (cs : ChainStore) (toHeight : Z)
    (root : Z -> Uint256) (fuel : nat) :
  toHeight < MaxUint32 ->
  forall (k : nat) (i : Z) (roots : list Uint256),
    0 <= i ->
    i + Z.of_nat k <= toHeight + 1 ->
    (forall x, i <= x < i + Z.of_nat k -> declares_root cs x (root x)) ->
    GetStateRoots_loop (k + fuel) cs i toHeight roots
    = GetStateRoots_loop fuel cs (i + Z.of_nat k) toHeight
        (roots ++ (root <$> seqZ i (Z.of_nat k))).
Proof.
  unfold MaxUint32. intros Hmax.
  induction k as [| k IH]; intros i roots Hi Hk Hok.
  - cbn. by rewrite Z.add_0_r, app_nil_r.
  - cbn [Nat.add GetStateRoots_loop].
    destruct (Z.leb_spec i toHeight); [| lia].
    destruct (Hok i) as (headerHash & header & -> & Hg & Hr); [lia |].
    rewrite Hg, Hr.
    assert (Hw : u32 (i + 1) = i + 1) by (unfold u32; apply Z.mod_small; lia).
    rewrite Hw, IH; [| lia | lia | intros x Hx; apply Hok; lia].
    rewrite (seqZ_cons i (Z.of_nat (S k))) by lia.
    rewrite fmap_cons, <- app_assoc. cbn [app].
    replace (i + Z.of_nat (S k)) with (i + 1 + Z.of_nat k) by lia.
    replace (Z.succ i) with (i + 1) by lia.
    replace (Z.pred (Z.of_nat (S k))) with (Z.of_nat k) by lia.
    reflexivity.
Qed.

(** X19. [GetStateRoots] over a range that ends below the largest [uint32]:
    when every height of the range has its index entry and a header
    declaring a root, the call returns these roots, one per height, in
    order of height; and a height of the range without index entry makes
    the call return the error of that lookup, and no root at all. *)
Theorem GetStateRoots_range (cs : ChainStore) (fromHeight toHeight : Z)
    (root : Z -> Uint256) (fuel : nat) :
  0 <= fromHeight <= toHeight ->
  toHeight < MaxUint32 ->
  ((forall i, fromHeight <= i <= toHeight -> declares_root cs i (root i)) ->
   GetStateRoots (Z.to_nat (toHeight - fromHeight + 1) + S fuel) cs
     fromHeight toHeight
   = Some (Ok (root <$> heights fromHeight toHeight)))
  /\ (forall missing e,
        fromHeight <= missing <= toHeight ->
        (forall i, fromHeight <= i < missing -> declares_root cs i (root i)) ->
        GetBlockHash cs missing = Err e ->
        GetStateRoots (Z.to_nat (missing - fromHeight) + S fuel) cs
          fromHeight toHeight
        = Some (Err e)).
Proof.
  intros Hft Hmax. unfold GetStateRoots.
  destruct (Z.ltb_spec toHeight fromHeight); [lia |].
  split.
  - intros Hok.
    rewrite (GetStateRoots_loop_steps cs toHeight root (S fuel) Hmax);
      [| lia | lia | intros x Hx; apply Hok; lia].
    cbn [GetStateRoots_loop app]. rewrite Z2Nat.id by lia.
    destruct (Z.leb_spec (fromHeight + (toHeight - fromHeight + 1)) toHeight);
      [lia | reflexivity].
  - intros missing e Hm Hok Herr.
    rewrite (GetStateRoots_loop_steps cs toHeight root (S fuel) Hmax);
      [| lia | lia | intros x Hx; apply Hok; lia].
    cbn [GetStateRoots_loop]. rewrite Z2Nat.id by lia.
    replace (fromHeight + (missing - fromHeight)) with missing by lia.
    destruct (Z.leb_spec missing toHeight); [| lia].
    by rewrite Herr.
Qed.

(** *** Values too short for their readers *)

Lemma Uint32_short (value : bytes) :
  (length value < 4)%nat -> Uint32 value = Panic.
Proof.
  intros Hl. do 4 (destruct value as [| ? value]; [reflexivity |]).
  cbn in Hl. lia.
Qed.

(** X20. Stored values shorter than what the code indexes make the reader
    panic instead of returning an error: a transaction record of fewer than
    four bytes for [getTx] and [GetTransaction], and for [GetBlock] of a
    block that lists this transaction first; a compacted height of fewer
    than four bytes for [getCompactHeight]; an empty version value for
    start-up, which then changes nothing. *)
Theorem short_values_panic (cs : ChainStore) :
  (forall hash value,
     durable (st cs) !! TransactionKey hash = Some value ->
     (length value < 4)%nat ->
     getTx cs hash = Panic
     /\ GetTransaction cs hash = Panic
     /\ forall blockHash data header txn txs,
          Get (st cs) (HeaderKey blockHash) = Ok data ->
          Block_FromTrimmedData data = Ok (mkBlock header (txn :: txs)) ->
          Txn_Hash txn = hash ->
          GetBlock cs blockHash = Panic)
  /\ (forall value,
        durable (st cs) !! TrieCompactHeightKey = Some value ->
        (length value < 4)%nat ->
        getCompactHeight cs = Panic)
  /\ (forall genesisBlock,
        durable (st cs) !! VersionKey = Some [] ->
        InitLedgerStoreWithGenesisBlock cfg genesisBlock cs = (cs, Panic)).
Proof.
  split; [| split].
  - intros hash value Hv Hl.
    assert (Hget : getTx cs hash = Panic).
    { unfold getTx, Get. rewrite Hv. cbn [rbind].
      by rewrite Uint32_short. }
    split; [exact Hget |]. split.
    + unfold GetTransaction. by rewrite Hget.
    + intros blockHash data header txn txs Hd Hdec <-.
      unfold GetBlock. rewrite Hd. cbn [rbind]. rewrite Hdec.
      cbn. by rewrite Hget.
  - intros value Hv Hl. unfold getCompactHeight, Get. rewrite Hv.
    by apply Uint32_short.
  - intros genesisBlock Hv.
    unfold InitLedgerStoreWithGenesisBlock, mbind, reads, lift, Get.
    by rewrite Hv.
Qed.

(** *** The pointer in memory and on disk *)

(** X21. After [SaveBlock] (live pruning off) of a block whose hash is a
    32-byte digest and whose height is a [uint32], the chain pointer in
    memory and the one on disk agree: [getCurrentBlockHashFromDB] returns
    [currentBlockHash] and [currentBlockHeight]. *)
Theorem SaveBlock_pointer_on_disk (b : Block) (fastAdd : bool)
    (cs cs' : ChainStore) :
  SaveBlock cfg b fastAdd cs = (cs', Ok tt) ->
  LivePruning cfg = false ->
  length (Block_Hash b) = UINT256SIZE ->
  0 <= Block_Height b < 2 ^ 32 ->
  getCurrentBlockHashFromDB cs'
  = (GetCurrentBlockHash cs', GetHeight cs', Ok tt).
Proof.
  intros Hs Hl Hlen Hh.
  destruct (SaveBlock_Ok_persist _ _ _ _ Hs) as [cs1 Hp].
  rewrite (SaveBlock_no_pruning b fastAdd cs cs1 Hl Hp) in Hs.
  injection Hs as <-.
  assert (Hptr : getCurrentBlockHashFromDB cs1
                 = (Block_Hash b, u32 (Block_Height b), Ok tt)).
  { pose proof Hp as Hc.
    apply persist_success in Hc
      as (states & root & dw & _ & _ & _ & _ & _ & ->).
    by apply pointer_committed. }
  unfold GetCurrentBlockHash, GetHeight.
  cbn [currentBlockHash currentBlockHeight set_headerCache set_pointer].
  unfold u32 in Hptr. rewrite Z.mod_small in Hptr by exact Hh.
  rewrite <- Hptr. reflexivity.
Qed.

(** *** The size of the donation *)

Lemma CalcNextDonation_value (cs : ChainStore) (height : Z) (d : Donation)
    (donationAddress : Uint160) (X : Z) :
  0 < height ->
  CalcNextDonation cfg cs height = Ok d ->
  ToScriptHash (DonationAddress cfg) = Ok donationAddress ->
  treasury_balance cfg cs donationAddress = Ok X ->
  0 < DonationAdjustDivisorFactor cfg ->
  0 < RewardAdjustInterval cfg <= MaxInt64 ->
  in_int64 (X * DonationAdjustDividendFactor cfg) ->
  Amount d =
    Z.quot (Z.quot (X * DonationAdjustDividendFactor cfg)
              (DonationAdjustDivisorFactor cfg))
      (RewardAdjustInterval cfg).
Proof.
  intros Hh Hcalc Haddr Hbal Hdiv Hint Hprod.
  unfold CalcNextDonation in Hcalc.
  destruct (Z.eqb_spec height 0) as [-> | _]; [lia |].
  destruct (getDonation cfg cs) as [lastDonation | e |]; cbn in Hcalc;
    [| discriminate ..].
  destruct (negb _); [discriminate |].
  rewrite Haddr in Hcalc. cbn in Hcalc. rewrite Hbal in Hcalc. cbn in Hcalc.
  unfold i64_div in Hcalc.
  destruct (Z.eqb_spec (DonationAdjustDivisorFactor cfg) 0) as [H0 | _];
    [lia |].
  cbn in Hcalc.
  assert (Hi : i64 (RewardAdjustInterval cfg) = RewardAdjustInterval cfg).
  { apply i64_id. unfold in_int64, MinInt64, MaxInt64 in *. lia. }
  rewrite Hi in Hcalc.
  destruct (Z.eqb_spec (RewardAdjustInterval cfg) 0) as [H0 | _]; [lia |].
  cbn in Hcalc. injection Hcalc as <-. cbn.
  rewrite (i64_id (X * _)) by exact Hprod.
  rewrite (i64_id (Z.quot (X * _) _)) by (by apply quot_in_int64).
  apply i64_id. apply quot_in_int64; [lia |]. by apply quot_in_int64.
Qed.

(** X22. The donation follows the treasury: with a non-negative dividend
    factor, a positive divisor factor and interval, and products that fit a
    [Fixed64], a treasury that holds no less gives a donation that is no
    smaller, a non-negative balance gives a non-negative donation, and the
    donation per block times the interval never exceeds the share
    [X * dividendFactor / divisorFactor] of the treasury. *)
Theorem CalcNextDonation_monotone (cs1 cs2 : ChainStore) (h1 h2 : Z)
    (d1 d2 : Donation) (donationAddress : Uint160) (X1 X2 : Z) :
  0 < h1 -> 0 < h2 ->
  CalcNextDonation cfg cs1 h1 = Ok d1 ->
  CalcNextDonation cfg cs2 h2 = Ok d2 ->
  ToScriptHash (DonationAddress cfg) = Ok donationAddress ->
  treasury_balance cfg cs1 donationAddress = Ok X1 ->
  treasury_balance cfg cs2 donationAddress = Ok X2 ->
  0 <= DonationAdjustDividendFactor cfg ->
  0 < DonationAdjustDivisorFactor cfg ->
  0 < RewardAdjustInterval cfg <= MaxInt64 ->
  in_int64 (X1 * DonationAdjustDividendFactor cfg) ->
  in_int64 (X2 * DonationAdjustDividendFactor cfg) ->
  0 <= X1 <= X2 ->
  0 <= Amount d1 <= Amount d2
  /\ Amount d2 * RewardAdjustInterval cfg
     <= Z.quot (X2 * DonationAdjustDividendFactor cfg)
          (DonationAdjustDivisorFactor cfg).
Proof.
  intros Hh1 Hh2 Hc1 Hc2 Haddr Hb1 Hb2 Hdvd Hdiv Hint Hp1 Hp2 HX.
  rewrite (CalcNextDonation_value cs1 h1 d1 donationAddress X1) by assumption.
  rewrite (CalcNextDonation_value cs2 h2 d2 donationAddress X2) by assumption.
  set (p1 := X1 * DonationAdjustDividendFactor cfg) in *.
  set (p2 := X2 * DonationAdjustDividendFactor cfg) in *.
  assert (H0p1 : 0 <= p1) by (subst p1; nia).
  assert (Hp12 : p1 <= p2) by (subst p1 p2; nia).
  rewrite (Z.quot_div_nonneg p1), (Z.quot_div_nonneg p2) by lia.
  assert (Hq1 : 0 <= p1 / DonationAdjustDivisorFactor cfg)
    by (apply Z.div_pos; lia).
  assert (Hq2 : 0 <= p2 / DonationAdjustDivisorFactor cfg)
    by (apply Z.div_pos; lia).
  rewrite !Z.quot_div_nonneg by lia.
  split; [split |].
  - apply Z.div_pos; [apply Z.div_pos; lia | lia].
  - apply Z.div_le_mono; [lia |]. apply Z.div_le_mono; lia.
  - rewrite Z.mul_comm. apply Z.mul_div_le. lia.
Qed.

End Further.

(** ** Further runs on the small instance *)

Section FurtherRuns.

Import Demo.

Ltac run := vm_compute; reflexivity.

(** X1 on the record of height 10 and amount 50. *)
Lemma Donation_roundtrip_witness :
  exists w,
    Donation_Serialize (NewDonation 10 50) [] = Ok w
    /\ Donation_Deserialize w = Ok (NewDonation 10 50).
Proof.
  destruct (Donation_roundtrip (NewDonation 10 50)) as (w & Hser & _ & Hback).
  exists w. split; [exact Hser |].
  apply Hback; [cbn; lia |].
  unfold in_int64, MinInt64, MaxInt64. cbn. lia.
Defined.

(** X2 on [booted] and on [unwritable]. *)
Lemma ResetDB_spec_witness :
  ResetDB booted = (set_st (mkStore ∅ [] true) booted, Ok tt)
  /\ exists cs', ResetDB unwritable = (cs', Err ErrIO)
                 /\ durable (st cs') = durable (st unwritable).
Proof.
  split.
  - destruct (@ResetDB_spec types booted) as [Hok _]. apply Hok. run.
  - destruct (@ResetDB_spec types unwritable) as [_ Hfail].
    destruct Hfail as (cs' & Hr & Hnc); [run |].
    exists cs'. split; [exact Hr | apply Hnc].
Defined.

(** X3 on a commit that fails: [block1] on [unwritable]. *)
Lemma persist_all_or_nothing_witness :
  durable (st (persist config block1 unwritable).1) = durable (st unwritable).
Proof.
  destruct (@persist_all_or_nothing types collaborators config block1 unwritable
              (persist config block1 unwritable).1 (Err ErrIO))
    as [_ Hnc].
  - run.
  - discriminate.
  - apply Hnc.
Defined.

(** X4 on [block1] over [booted]. *)
Lemma GetCurrentBlockStateRoot_after_persist_witness :
  GetCurrentBlockStateRoot (persist config block1 booted).1
  = Ok (replicate 32 x02).
Proof.
  apply (@GetCurrentBlockStateRoot_after_persist types collaborators config
           block1 booted (persist config block1 booted).1).
  run.
Defined.

(** X5 on [block1] over [booted]. *)
Lemma getCurrentBlockHashFromDB_after_persist_witness :
  getCurrentBlockHashFromDB (persist config block1 booted).1
  = (Block_Hash block1, u32 1, Ok tt).
Proof.
  apply (@getCurrentBlockHashFromDB_after_persist types collaborators config
           block1 booted (persist config block1 booted).1).
  - run.
  - run.
Defined.

Lemma block1_hashes_distinct (t1 t2 : Transaction) :
  t1 ∈ Transactions block1 -> t2 ∈ Transactions block1 ->
  Txn_Hash t1 = Txn_Hash t2 -> t1 = t2.
Proof.
  intros H1 H2 Heq.
  apply elem_of_cons in H1 as [-> | H1];
    [| apply list_elem_of_singleton in H1 as ->];
    (apply elem_of_cons in H2 as [-> | H2];
       [| apply list_elem_of_singleton in H2 as ->]);
    first [ reflexivity | vm_compute in Heq; discriminate Heq ].
Qed.

(** X6 on [block1] over [booted]. *)
Lemma GetBlockByHeight_after_persist_witness :
  GetBlockHash (persist config block1 booted).1 1 = Ok (Block_Hash block1)
  /\ GetBlockByHeight (persist config block1 booted).1 1 = Ok block1.
Proof.
  destruct (@GetBlockByHeight_after_persist types collaborators config
              block1 block1_trimmed booted (persist config block1 booted).1)
    as [Hhash Hblock].
  - run.
  - run.
  - split; [exact Hhash |].
    apply Hblock.
    + run.
    + run.
    + run.
    + intros txn _. reflexivity.
    + apply block1_hashes_distinct.
Defined.

(** X7 on the transfer of [block1]. *)
Lemma IsTxHashDuplicate_after_persist_witness :
  IsTxHashDuplicate (persist config block1 booted).1 (Txn_Hash transfer1)
  = true.
Proof.
  apply (@IsTxHashDuplicate_after_persist types collaborators config
           block1 booted (persist config block1 booted).1 transfer1).
  - run.
  - apply list_elem_of_here.
Defined.

(** X8 on [block1] over [booted]: the version marker is outside the batch
    and reads as before, and the header of the genesis block keeps a
    value. *)
Lemma persist_only_adds_witness :
  durable (st (persist config block1 booted).1) !! VersionKey
  = durable (st booted) !! VersionKey
  /\ is_Some (durable (st (persist config block1 booted).1)
              !! HeaderKey (Block_Hash genesis)).
Proof.
  destruct (@persist_only_adds types collaborators config
              block1 booted (persist config block1 booted).1)
    as [Hother Hkeeps]; [run |].
  split.
  - apply Hother. intros Hin. vm_compute in Hin.
    repeat (apply elem_of_cons in Hin as [Hin | Hin]; [discriminate Hin |]).
    by apply elem_of_nil in Hin.
  - apply Hkeeps. vm_compute. by eexists.
Defined.

(** X9 on the genesis block of [booted] and [block1]. *)
Lemma GetBlock_unchanged_by_persist_witness :
  GetBlock (persist config block1 booted).1 (Block_Hash genesis)
  = GetBlock booted (Block_Hash genesis).
Proof.
  apply (@GetBlock_unchanged_by_persist types collaborators config
           block1 genesis_trimmed
           booted (persist config block1 booted).1 (Block_Hash genesis)
           (encode_trimmed genesis)).
  - run.
  - run.
  - run.
  - intros H. vm_compute in H. discriminate H.
  - intros txn Hin Hdup.
    apply list_elem_of_singleton in Hin as ->.
    vm_compute in Hdup.
    repeat (apply elem_of_cons in Hdup as [Hdup | Hdup]; [discriminate Hdup |]).
    by apply elem_of_nil in Hdup.
Defined.

(** X10 on [block20] over [booted], whose last donation record has
    height 0. *)
Lemma persist_donation_error_witness :
  exists cs',
    persist config block20 booted = (cs', Err ErrInvalidDonationHeight)
    /\ durable (st cs') = durable (st booted).
Proof.
  destruct (@persist_donation_error types collaborators config block20 booted
              (replicate 32 x00) (replicate 32 x00) ErrInvalidDonationHeight)
    as (cs' & Hp & Hnc).
  - constructor.
  - run.
  - run.
  - intros H. vm_compute in H. discriminate H.
  - run.
  - run.
  - exists cs'. split; [exact Hp | apply Hnc].
Defined.

(** X11 on [block10] saved over [before_adjustment] and on height 15. *)
Lemma GetDonation_after_SaveBlock_witness :
  GetDonation config_quiet
    (set_pointer []  15 (SaveBlock config_quiet block10 false before_adjustment).1)
  = Ok 50.
Proof.
  destruct (@GetDonation_after_SaveBlock types collaborators config_quiet
              block10 false before_adjustment
              (SaveBlock config_quiet block10 false before_adjustment).1)
    as (d & Hcalc & Hget).
  - run.
  - run.
  - by vm_compute.
  - by vm_compute.
  - run.
  - assert (Hd : d = NewDonation 10 50).
    { vm_compute in Hcalc. by injection Hcalc as <-. }
    subst d.
    destruct (Hget [] 15) as [_ Hamount]; [by vm_compute | by vm_compute |].
    exact Hamount.
Defined.

(** X12 on [booted], which holds no cursor, and on a disk with both. *)
Lemma getPruningStartHeight_spec_witness :
  getPruningStartHeight booted = Ok (0, 0)
  /\ getPruningStartHeight
       (set_st (mkStore (<[TrieRefCountHeightKey := PutUint32 7 ++ []]>
                           (<[TriePrunedHeightKey := PutUint32 4 ++ []]> ∅))
                  [] true) booted)
     = Ok (u32 (u32 7 + 1), u32 (u32 4 + 1)).
Proof.
  split.
  - destruct (@getPruningStartHeight_spec types booted) as (Hnone & _).
    apply Hnone; run.
  - destruct (@getPruningStartHeight_spec types
                (set_st (mkStore
                           (<[TrieRefCountHeightKey := PutUint32 7 ++ []]>
                              (<[TriePrunedHeightKey := PutUint32 4 ++ []]> ∅))
                           [] true) booted)) as (_ & Hboth & _).
    apply (Hboth 7 4 [] []); run.
Defined.

(** X13 on [booted] and height 7. *)
Lemma persistCompactHeight_getCompactHeight_witness :
  getCompactHeight booted = Ok 0
  /\ exists cs',
       persistCompactHeight 7 booted = (cs', Ok tt)
       /\ getCompactHeight cs' = Ok (u32 7).
Proof.
  destruct (@persistCompactHeight_getCompactHeight types booted 7)
    as (Hnone & Hput & _).
  split; [apply Hnone; run |].
  destruct Hput as (cs' & Hp & Hg & _); [run |].
  exists cs'. by split.
Defined.

(** X14 on [block1] over [booted]. *)
Lemma IsBlockInStore_after_SaveBlock_witness :
  IsBlockInStore (persist config_quiet block1 booted).1 (Block_Hash block1)
  = Ok false
  /\ IsBlockInStore (SaveBlock config_quiet block1 false booted).1
       (Block_Hash block1) = Ok true.
Proof.
  destruct (@IsBlockInStore_after_SaveBlock types collaborators config_quiet
              block1 false booted (persist config_quiet block1 booted).1
              (SaveBlock config_quiet block1 false booted).1
              (header_encode (Header block1)))
    as (_ & Hbefore & Hafter).
  - run.
  - run.
  - run.
  - run.
  - run.
  - split; [apply Hbefore; by vm_compute | exact Hafter].
Defined.

(** X15 on [block1] over [booted]. *)
Lemma SaveBlock_headerCache_witness :
  headerCache (SaveBlock config block1 false booted).1
  = [Header block1; Header genesis].
Proof.
  destruct (@SaveBlock_headerCache types collaborators config
              block1 false booted (persist config block1 booted).1
              (SaveBlock config block1 false booted).1 (Ok tt))
    as [Hcache _].
  - run.
  - run.
  - rewrite Hcache. run.
Defined.

(** X16 on a fresh store. *)
Lemma InitLedgerStore_version_mismatch_witness :
  currentBlockHash booted = Block_Hash genesis
  /\ durable (st booted) !! VersionKey = Some [x01].
Proof.
  destruct (@InitLedgerStore_version_mismatch types collaborators config
              genesis empty_store booted (Ok 0) x00 [])
    as [_ Hwrites].
  - run.
  - discriminate.
  - run.
  - destruct Hwrites as [Hok _]; [run |].
    destruct (Hok 0 eq_refl) as (_ & _ & Hhash & Hversion & _).
    by split.
Defined.

(** X17 on [reopened]. *)
Lemma InitLedgerStore_recovers_pointer_witness :
  exists cs',
    InitLedgerStoreWithGenesisBlock config_quiet genesis reopened = (cs', Ok 1)
    /\ currentBlockHash cs' = Block_Hash block1.
Proof.
  destruct (@InitLedgerStore_recovers_pointer types collaborators config_quiet
              genesis block1 booted (persist config_quiet block1 booted).1
              reopened [] (Header block1) (replicate 32 x02))
    as (cs' & Hinit & Hhash & _).
  - run.
  - run.
  - run.
  - run.
  - run.
  - by vm_compute.
  - run.
  - intros c. reflexivity.
  - run.
  - exists cs'. by split.
Defined.

(** X18 on [version_only]. *)
Lemma InitLedgerStore_genesis_missing_witness :
  InitLedgerStoreWithGenesisBlock config genesis version_only
  = (version_only, Err ErrGenesisNotInStore).
Proof.
  apply (@InitLedgerStore_genesis_missing types collaborators config
           genesis version_only []).
  - run.
  - run.
Defined.

(** X19 on heights 0 to 1 of [saved1], and on heights 0 to 3, of which 2 is
    missing. *)
Lemma GetStateRoots_range_witness :
  GetStateRoots 3 saved1 0 1 = Some (Ok [replicate 32 x01; replicate 32 x02])
  /\ GetStateRoots 3 saved1 0 3 = Some (Err ErrNotFound).
Proof.
  assert (Hroots : forall i, 0 <= i < 2 -> declares_root saved1 i (saved1_root i)).
  { intros i Hi. assert (i = 0 \/ i = 1) as [-> | ->] by lia.
    - exists (Block_Hash genesis), (Header genesis). repeat split; run.
    - exists (Block_Hash block1), (Header block1). repeat split; run. }
  split.
  - destruct (@GetStateRoots_range types collaborators saved1 0 1 saved1_root 0)
      as [Hall _]; [lia | by vm_compute |].
    apply Hall. intros i Hi. apply Hroots. lia.
  - destruct (@GetStateRoots_range types collaborators saved1 0 3 saved1_root 0)
      as [_ Hmiss]; [lia | by vm_compute |].
    apply (Hmiss 2 ErrNotFound); [lia | | run].
    intros i Hi. apply Hroots. lia.
Defined.

(** X20 on [truncated]. *)
Lemma short_values_panic_witness :
  getTx truncated (pad32 [x01; x0a]) = Panic
  /\ GetBlock truncated (Block_Hash block1) = Panic
  /\ getCompactHeight truncated = Panic
  /\ InitLedgerStoreWithGenesisBlock config genesis truncated
     = (truncated, Panic).
Proof.
  destruct (@short_values_panic types collaborators config truncated)
    as (Htx & Hcompact & Hversion).
  destruct (Htx (pad32 [x01; x0a]) [x01; x00]) as (Hget & _ & Hblock);
    [run | cbn; lia |].
  split; [exact Hget |]. split.
  - apply (Hblock (Block_Hash block1) (encode_trimmed block1)
             (header 1 (replicate 32 x02))
             (pad32 [x01; x0a]) [pad32 [x03; x0b]]); run.
  - split.
    + apply (Hcompact [x07]); [run | cbn; lia].
    + apply Hversion. run.
Defined.

(** X21 on [block1] saved over [booted]. *)
Lemma SaveBlock_pointer_on_disk_witness :
  getCurrentBlockHashFromDB (SaveBlock config_quiet block1 false booted).1
  = (Block_Hash block1, 1, Ok tt).
Proof.
  rewrite (@SaveBlock_pointer_on_disk types collaborators config_quiet
             block1 false booted (SaveBlock config_quiet block1 false booted).1).
  - run.
  - run.
  - run.
  - run.
  - by vm_compute.
Defined.

(** X22 on the treasury of 1000 of [before_adjustment] against itself. *)
Lemma CalcNextDonation_monotone_witness :
  0 <= 50 <= 50 /\ 50 * 10 <= Z.quot (1000 * 1) 2.
Proof.
  apply (@CalcNextDonation_monotone types collaborators config
           before_adjustment before_adjustment 10 10
           (NewDonation 10 50) (NewDonation 10 50) [] 1000 1000).
  1,2: lia.
  1,2,3,4,5: run.
  - cbn. lia.
  - cbn. lia.
  - unfold MaxInt64. cbn. lia.
  - unfold in_int64, MinInt64, MaxInt64. cbn. lia.
  - unfold in_int64, MinInt64, MaxInt64. cbn. lia.
  - lia.
Defined.

End FurtherRuns.
